(** * The state form of the club-management front end

    A shallow embedding of [src/modules/states/StateForm.tsx]: the helpers
    [prettifyFieldName] and [extractErrorMessage], the validation schema
    [stateFormSchema], and the component [StateForm] as a state machine over
    the events the browser and the network deliver to it.

    JavaScript strings are sequences of UTF-16 code units; a code unit is an
    [N] below 65536.  JSON-like values handed over by the API service are
    the inductive [JsVal].  Calls to collaborators (network, toasts, query
    cache, router, console, the caller's callback) are recorded, in program
    order, in a trace of [Effect]s.

    The two callers of the form ([CreateState], [EditState]) and the theme
    logic of the layout shell ([src/layouts/MainLayout.tsx]) follow. *)

From Stdlib Require Import NArith ZArith List String Ascii Bool Lia.
From stdpp Require Import base option list gmap.
Import ListNotations.

Local Open Scope N_scope.

(** ** JavaScript strings *)

Module Js.

Abbreviation str := (list N).

(** The code unit of an ASCII character, and the code units of an ASCII
    literal. *)
Definition ch (a : ascii) : N := N_of_ascii a.
Definition lit (s : string) : str := map ch (list_ascii_of_string s).

(** [s.length] *)
Definition len (s : str) : N := N.of_nat (length s).

(** [s.charAt(i)]: the one-unit string at index [i], or the empty string. *)
Definition charAt (i : nat) (s : str) : str :=
  match drop i s with
  | c :: _ => [c]
  | [] => []
  end.

(** [s.slice(i)] for a non-negative [i]. *)
Definition slice (i : nat) (s : str) : str := drop i s.

(** [s.split(sep)] for a one-unit separator: the segments between the
    separators, in order; the empty string splits into one empty segment. *)
Fixpoint split (sep : N) (s : str) : list str :=
  match s with
  | [] => [[]]
  | c :: rest =>
      if c =? sep then [] :: split sep rest
      else match split sep rest with
           | seg :: segs => (c :: seg) :: segs
           | [] => [[c]]
           end
  end.

(** White space and line terminators, the units [String.prototype.trim]
    removes. *)
Definition white_units : list N :=
  [9; 10; 11; 12; 13; 32; 160; 5760;
   8192; 8193; 8194; 8195; 8196; 8197; 8198; 8199; 8200; 8201; 8202;
   8232; 8233; 8239; 8287; 12288; 65279].

Definition is_white (c : N) : bool := existsb (N.eqb c) white_units.

Fixpoint trimStart (s : str) : str :=
  match s with
  | c :: rest => if is_white c then trimStart rest else s
  | [] => []
  end.

Definition trimEnd (s : str) : str := rev (trimStart (rev s)).

Definition trim (s : str) : str := trimEnd (trimStart s).

(** [A-Z] in a regular expression without the [i] and [u] flags. *)
Definition is_upper (c : N) : bool := (65 <=? c) && (c <=? 90).

Definition is_ascii (c : N) : bool := c <? 128.

Definition ascii_upper (c : N) : N :=
  if (97 <=? c) && (c <=? 122) then c - 32 else c.

(** [pat] is a prefix of [s]. *)
Fixpoint starts_with (pat s : str) : bool :=
  match pat, s with
  | [], _ => true
  | p :: pat', c :: s' => (c =? p) && starts_with pat' s'
  | _ :: _, [] => false
  end.

(** [s.indexOf(pat)]: the first index at which [pat] occurs. *)
Fixpoint indexOf (pat s : str) : option nat :=
  if starts_with pat s then Some 0%nat
  else match s with
       | [] => None
       | _ :: rest => S <$> indexOf pat rest
       end.

(** The replacement text of [String.prototype.replace] when the pattern is a
    string (no captures): in the template, [$$] stands for a dollar sign, [$&]
    for the matched text, [$`] for the text before the match and [$'] for the
    text after it; any other unit, also a dollar sign followed by something
    else, stands for itself. *)
Fixpoint getSubstitution (matched before after template : str) : str :=
  match template with
  | [] => []
  | c :: rest =>
      if c =? ch "$" then
        match rest with
        | d :: rest' =>
            if d =? ch "$" then ch "$" :: getSubstitution matched before after rest'
            else if d =? ch "&" then matched ++ getSubstitution matched before after rest'
            else if d =? ch "`" then before ++ getSubstitution matched before after rest'
            else if d =? ch "'" then after ++ getSubstitution matched before after rest'
            else c :: getSubstitution matched before after rest
        | [] => [c]
        end
      else c :: getSubstitution matched before after rest
  end.

(** [s.replace(pat, template)] for a string pattern: only the first occurrence
    is replaced. *)
Definition replace (s pat template : str) : str :=
  match indexOf pat s with
  | None => s
  | Some i =>
      let before := take i s in
      let after := drop (i + length pat) s in
      before ++ getSubstitution pat before after template ++ after
  end.

Section Casing.

(** The upper-casing of strings that are not ASCII is decided by the Unicode
    tables of the JavaScript runtime; they are a parameter here.  On ASCII
    strings [toUpperCase] maps [a-z] to [A-Z] and leaves the rest. *)
Variable unicodeUpper : str -> str.

Definition toUpperCase (s : str) : str :=
  if forallb is_ascii s then map ascii_upper s else unicodeUpper s.

(** The canonical form of a unit under the [i] flag without the [u] flag:
    its upper case when that is one unit, except that a unit outside ASCII
    never folds onto an ASCII one. *)
Definition canonicalize (c : N) : N :=
  match toUpperCase [c] with
  | [cu] => if (128 <=? c) && (cu <? 128) then c else cu
  | _ => c
  end.

(** The rest of the input, all of it, matches the literal [pat] under the
    [i] flag: a literal followed by [$]. *)
Fixpoint matches_to_end_i (pat s : str) : bool :=
  match pat, s with
  | [], [] => true
  | p :: pat', c :: s' =>
      (canonicalize c =? canonicalize p) && matches_to_end_i pat' s'
  | _, _ => false
  end.

(** [s.replace(/(key|id)$/i, "")]: the leftmost position from which the
    regular expression matches is found by trying each start position in
    turn, the alternative [key] before [id]; the match is deleted. *)
Fixpoint replace_key_id_suffix (s : str) : str :=
  if matches_to_end_i (lit "key") s || matches_to_end_i (lit "id") s then []
  else match s with
       | [] => []
       | c :: rest => c :: replace_key_id_suffix rest
       end.

(** [s.replace(/([A-Z])/g, " $1")]: every upper-case ASCII letter gets a
    space in front of it. *)
Definition replace_upper_spaced (s : str) : str :=
  flat_map (fun c => if is_upper c then [ch " "; c] else [c]) s.

(** [prettifyFieldName] of StateForm.tsx. *)
Definition prettifyFieldName (key : str) : str :=
  let parts := split (ch "_") key in
  let field := if (1 <? length parts)%nat then nth 1 parts [] else key in
  let field := replace_key_id_suffix field in
  let field := trim (replace_upper_spaced field) in
  toUpperCase (charAt 0 field) ++ slice 1 field.

End Casing.

End Js.

(** ** The error-label mapping as the specification words it

    The four steps of the mapping, each written from its sentence; the
    refinement theorem below compares them with [Js.prettifyFieldName].
    "Case-insensitive" is read on the letters of [key] and [id] (either case of
    each letter), "uppercase letter" as [A] to [Z], "internal" as not in first
    position. *)

Module Spec.

Import Js.

Definition lower_letter (p : N) : Prop := 97 <= p <= 122.

Section Casing.

Variable unicodeUpper : str -> str.

(** Step 1: the second segment when there is more than one, else the key. *)
Definition segment (key : str) : str :=
  match split (ch "_") key with
  | _ :: second :: _ => second
  | _ => key
  end.

Definition same_letter (c p : N) : bool := (c =? p) || (c =? p - 32).

Fixpoint same_word (s word : str) : bool :=
  match s, word with
  | [], [] => true
  | c :: s', p :: word' => same_letter c p && same_word s' word'
  | _, _ => false
  end.

Definition ends_with (word s : str) : bool :=
  same_word (drop (length s - length word) s) word.

(** Step 2: one trailing [key] or [id] is cut off. *)
Definition strip_suffix (s : str) : str :=
  if ends_with (lit "key") s then take (length s - 3) s
  else if ends_with (lit "id") s then take (length s - 2) s
  else s.

(** Step 3: a space before each upper-case letter that is not the first
    unit. *)
Definition space_internal (s : str) : str :=
  match s with
  | [] => []
  | c :: rest => c :: flat_map (fun d => if is_upper d then [ch " "; d] else [d]) rest
  end.

(** Step 4: trim, then the first letter in upper case. *)
Definition capitalize (s : str) : str :=
  match s with
  | [] => []
  | c :: rest => toUpperCase unicodeUpper [c] ++ rest
  end.

Definition prettify (key : str) : str :=
  capitalize (trim (space_internal (strip_suffix (segment key)))).

(** Step 5, and the claim on the displayed message: the first occurrence of
    the key in the message gives way to the label. *)
Definition substitute_first (message key label : str) : str :=
  match indexOf key message with
  | None => message
  | Some i => take i message ++ label ++ drop (i + length key) message
  end.

End Casing.

End Spec.

(** ** JSON-like values

    What the API service hands to the component: a response body or a
    rejection reason.  An object lists its own enumerable string-keyed
    properties in the order [Object.keys] reports them, each key once; an array
    is an object whose keys are its indices.  Numbers are integers here (a
    [NaN] or a fraction plays no part in the component beyond its
    truthiness). *)

Module Json.

Import Js.

#[local] Set Warnings "-register-all".

Inductive JsVal : Type :=
  | VUndefined
  | VNull
  | VBool (b : bool)
  | VNum (n : Z)
  | VStr (s : str)
  | VObj (props : list (str * JsVal)).

Fixpoint str_eqb (a b : str) : bool :=
  match a, b with
  | [], [] => true
  | x :: a', y :: b' => (x =? y) && str_eqb a' b'
  | _, _ => false
  end.

(** [!!v] *)
Definition truthy (v : JsVal) : bool :=
  match v with
  | VUndefined | VNull => false
  | VBool b => b
  | VNum n => negb (n =? 0)%Z
  | VStr s => negb (str_eqb s [])
  | VObj _ => true
  end.

(** [typeof v === "object"] *)
Definition typeof_object (v : JsVal) : bool :=
  match v with
  | VNull | VObj _ => true
  | _ => false
  end.

Fixpoint lookup_prop (k : str) (props : list (str * JsVal)) : JsVal :=
  match props with
  | [] => VUndefined
  | (k', v) :: rest => if str_eqb k k' then v else lookup_prop k rest
  end.

(** [v?.k], and [v.k] or [v[k]] where [v] is known not to be null or
    undefined.  The component reads only the data properties [errors],
    [message], [stateName] and the keys of an [errors] object, none of which
    a primitive or a prototype defines. *)
Definition prop (v : JsVal) (k : str) : JsVal :=
  match v with
  | VObj props => lookup_prop k props
  | _ => VUndefined
  end.

(** [Object.keys(v)] of an object. *)
Definition keys (v : JsVal) : list str :=
  match v with
  | VObj props => map fst props
  | _ => []
  end.

(** [a || b] *)
Definition or_else (a b : JsVal) : JsVal := if truthy a then a else b.

(** The text a value takes inside a template literal, for the values the
    component interpolates: a string or [undefined]. *)
Definition interpolate (v : option str) : str :=
  match v with
  | Some s => s
  | None => lit "undefined"
  end.

(** The outcome of evaluating code that may throw. *)
Inductive Exception : Type :=
  | TypeError
  | Error (message : str).

Inductive Completion (A : Type) : Type :=
  | Normal (a : A)
  | Throw (e : Exception).
Arguments Normal {A} a.
Arguments Throw {A} e.

(** The error object an exception carries. *)
Definition thrown (e : Exception) : JsVal :=
  match e with
  | TypeError => VObj [(lit "name", VStr (lit "TypeError"))]
  | Error m => VObj [(lit "message", VStr m)]
  end.


(** [v === undefined] *)
Definition is_undefined (v : JsVal) : bool :=
  match v with
  | VUndefined => true
  | _ => false
  end.

Fixpoint has_prop (k : str) (props : list (str * JsVal)) : bool :=
  match props with
  | [] => false
  | (k', _) :: rest => str_eqb k k' || has_prop k rest
  end.

(** The structural comparison of the query library ([replaceEqualDeep]): new
    data [b] that equals the old data [a] in this sense is dropped and the old
    object kept, so that nothing depending on its identity runs again.
    Primitives are compared by [===]; objects must have as many keys, and each
    key of [b] must be in [a] with a value that compares equal. *)
Fixpoint same_data (a b : JsVal) {struct b} : bool :=
  match b, a with
  | VUndefined, VUndefined => true
  | VNull, VNull => true
  | VBool y, VBool x => Bool.eqb x y
  | VNum y, VNum x => (x =? y)%Z
  | VStr y, VStr x => str_eqb x y
  | VObj pb, VObj pa =>
      (length pa =? length pb)%nat &&
      (fix all_kept (items : list (str * JsVal)) : bool :=
         match items with
         | [] => true
         | (k, vb) :: rest =>
             has_prop k pa && same_data (lookup_prop k pa) vb && all_kept rest
         end) pb
  | _, _ => false
  end.

End Json.

(** ** The component

    The hooks the component calls belong to libraries: [useForm] to
    react-hook-form, [useQuery], [useMutation] and [useQueryClient] to the
    query library.  Their behaviour is modelled as far as the component
    depends on it:
    - a query that is enabled fetches at the first render; [isLoading] holds
      while a fetch is in flight and there is no data yet; a function that
      resolves with [undefined] counts as failed; the error is dropped when a
      fetch succeeds, and when one starts without data;
    - [invalidateQueries] fetches again each mounted, enabled query whose key
      the filter key is a prefix of: the component's own query for the key
      [["state", stateId]], no query of the component for [["states"]];
    - data that compares equal to the data already held does not replace it;
    - the handlers given to [useMutation] run before [isPending] falls, and
      [mutate] does not look at [isPending];
    - [handleSubmit] validates the values the form holds at the click and marks
      the form as submitted; from then on a change of the field validates it
      again; [reset] clears the errors and that mark.

    The component's code runs at renders and in handlers; what is on the
    screen is what the last render produced, so an event can meet a screen
    that is one render behind the hook state ([deliver], [run_staged]). *)

Module StateForm.

Import Js Json.

(** [StateFormProps]; [className] is presentation only.  The caller's
    callback is opaque: it is known by a handle. *)
Inductive Mode : Type := create | edit.

Inductive Callback : Type := callback (handle : nat).

Record StateFormProps : Type := {
  mode : Mode;
  stateId : option str;
  onSuccess : option Callback;
}.

Definition mode_eqb (a b : Mode) : bool :=
  match a, b with
  | create, create | edit, edit => true
  | _, _ => false
  end.

(** [!!stateId] *)
Definition has_stateId (props : StateFormProps) : bool :=
  match stateId props with
  | Some s => truthy (VStr s)
  | None => false
  end.

Definition stateId_val (props : StateFormProps) : JsVal :=
  match stateId props with
  | Some s => VStr s
  | None => VUndefined
  end.

(** Calls to collaborators, as the trace records them. *)
Inductive Effect : Type :=
  | Get (url : str)
  | Post (url : str) (data : JsVal)
  | Put (url : str) (data : JsVal)
  | ToastSuccess (text : str)
  | ToastError (text : JsVal)
  | InvalidateQueries (queryKey : list JsVal)
  | FormReset (values : option JsVal)
  | CallOnSuccess (cb : Callback)
  | Navigate (path : str)
  | ConsoleError (label : str) (value : JsVal).

Definition is_network (e : Effect) : bool :=
  match e with
  | Get _ | Post _ _ | Put _ _ => true
  | _ => false
  end.

Definition is_success_toast (e : Effect) : bool :=
  match e with
  | ToastSuccess _ => true
  | _ => false
  end.

Definition is_completion (e : Effect) : bool :=
  match e with
  | CallOnSuccess _ | Navigate _ => true
  | _ => false
  end.

Definition is_form_reset (e : Effect) : bool :=
  match e with
  | FormReset _ => true
  | _ => false
  end.

(** The hook state of one mounted component.

    The form of react-hook-form: the value of the field [stateName], its
    default, the field errors, and [isSubmitted] (a submit has been attempted
    since the last reset), which turns on the validation at each change.

    The query: [stateData], [fetchError] ([None] is [null]), [isFetchingState]
    (the library's [isLoading]: a fetch is in flight and there is no data
    yet), and [isRefetching] (a fetch is in flight behind data already
    there).

    The mutations: [isPending] of each, which follows the latest call of
    [mutate], and the number of earlier calls still in flight, whose handlers
    run all the same when they settle. *)
Record State : Type := {
  value : JsVal;
  defaultValue : JsVal;
  errors : gmap str str;
  isSubmitted : bool;
  stateData : JsVal;
  isFetchingState : bool;
  isRefetching : bool;
  fetchError : option JsVal;
  createPending : bool;
  updatePending : bool;
  earlierCreates : nat;
  earlierUpdates : nat;
}.

Definition set_form (v d : JsVal) (errs : gmap str str) (st : State) : State :=
  {| value := v; defaultValue := d; errors := errs; isSubmitted := isSubmitted st;
     stateData := stateData st; isFetchingState := isFetchingState st;
     isRefetching := isRefetching st; fetchError := fetchError st;
     createPending := createPending st; updatePending := updatePending st;
     earlierCreates := earlierCreates st; earlierUpdates := earlierUpdates st |}.

Definition set_isSubmitted (b : bool) (st : State) : State :=
  {| value := value st; defaultValue := defaultValue st; errors := errors st;
     isSubmitted := b;
     stateData := stateData st; isFetchingState := isFetchingState st;
     isRefetching := isRefetching st; fetchError := fetchError st;
     createPending := createPending st; updatePending := updatePending st;
     earlierCreates := earlierCreates st; earlierUpdates := earlierUpdates st |}.

Definition set_query (d : JsVal) (fetching : bool) (err : option JsVal)
    (st : State) : State :=
  {| value := value st; defaultValue := defaultValue st; errors := errors st;
     isSubmitted := isSubmitted st;
     stateData := d; isFetchingState := fetching;
     isRefetching := isRefetching st; fetchError := err;
     createPending := createPending st; updatePending := updatePending st;
     earlierCreates := earlierCreates st; earlierUpdates := earlierUpdates st |}.

Definition set_isRefetching (b : bool) (st : State) : State :=
  {| value := value st; defaultValue := defaultValue st; errors := errors st;
     isSubmitted := isSubmitted st;
     stateData := stateData st; isFetchingState := isFetchingState st;
     isRefetching := b; fetchError := fetchError st;
     createPending := createPending st; updatePending := updatePending st;
     earlierCreates := earlierCreates st; earlierUpdates := earlierUpdates st |}.

Definition set_createPending (b : bool) (st : State) : State :=
  {| value := value st; defaultValue := defaultValue st; errors := errors st;
     isSubmitted := isSubmitted st;
     stateData := stateData st; isFetchingState := isFetchingState st;
     isRefetching := isRefetching st; fetchError := fetchError st;
     createPending := b; updatePending := updatePending st;
     earlierCreates := earlierCreates st; earlierUpdates := earlierUpdates st |}.

Definition set_updatePending (b : bool) (st : State) : State :=
  {| value := value st; defaultValue := defaultValue st; errors := errors st;
     isSubmitted := isSubmitted st;
     stateData := stateData st; isFetchingState := isFetchingState st;
     isRefetching := isRefetching st; fetchError := fetchError st;
     createPending := createPending st; updatePending := b;
     earlierCreates := earlierCreates st; earlierUpdates := earlierUpdates st |}.

Definition set_earlier (creates updates : nat) (st : State) : State :=
  {| value := value st; defaultValue := defaultValue st; errors := errors st;
     isSubmitted := isSubmitted st;
     stateData := stateData st; isFetchingState := isFetchingState st;
     isRefetching := isRefetching st; fetchError := fetchError st;
     createPending := createPending st; updatePending := updatePending st;
     earlierCreates := creates; earlierUpdates := updates |}.

(** Handlers run in a monad that threads the hook state and appends to the
    trace. *)
Definition M (A : Type) : Type := State -> A * State * list Effect.

#[export] Instance M_ret : MRet M := fun _ a st => (a, st, []).
#[export] Instance M_bind : MBind M := fun _ _ k c st =>
  let '(a, st1, t1) := c st in
  let '(b, st2, t2) := k a st1 in
  (b, st2, t1 ++ t2).

Definition skip : M unit := mret tt.
Definition emit (e : Effect) : M unit := fun st => (tt, st, [e]).
Definition modify (f : State -> State) : M unit := fun st => (tt, f st, []).
Definition exec {A} (c : M A) (st : State) : State * list Effect :=
  let '(_, st', t) := c st in (st', t).

(** [toast.success], [toast.error], [navigate], [console.error]. *)
Definition toast_success (text : string) : M unit := emit (ToastSuccess (lit text)).
Definition toast_error (text : JsVal) : M unit := emit (ToastError text).
Definition navigate (path : string) : M unit := emit (Navigate (lit path)).
Definition console_error (label : string) (v : JsVal) : M unit :=
  emit (ConsoleError (lit label) v).

(** [form.reset()] puts the field back to its default; [form.reset(values)]
    makes [values] the field's value and its new default; both clear the
    errors and [isSubmitted]. *)
Definition form_reset (values : option JsVal) : M unit :=
  emit (FormReset values) ;;
  modify (fun st =>
    set_isSubmitted false
      match values with
      | None => set_form (defaultValue st) (defaultValue st) ∅ st
      | Some vs => set_form (prop vs (lit "stateName")) (prop vs (lit "stateName")) ∅ st
      end).

(** A filter key matches a query whose key it is a prefix of (the keys of
    this component hold strings and [undefined] only). *)
Fixpoint key_prefix (filterKey queryKey : list JsVal) : bool :=
  match filterKey, queryKey with
  | [], _ => true
  | f :: fs, k :: ks => same_data k f && key_prefix fs ks
  | _ :: _, [] => false
  end.

Section Component.

(** The Unicode upper-casing of the runtime (see [Js.toUpperCase]). *)
Variable unicodeUpper : str -> str.

(** [Validate] of [@/lib/Handlevalidation], whose source is not part of
    this module: given the rejection reason and [form.setError], it writes
    field errors into the form. *)
Variable Validate : JsVal -> gmap str str -> gmap str str.

(** The message of the schema library for a value that is not a string. *)
Variable invalidTypeMessage : JsVal -> str.

Variable props : StateFormProps.

(** [stateFormSchema], on the value of the field [stateName]: the message
    of the first issue, or the parsed string. *)
Definition stateFormSchema (v : JsVal) : str + str :=
  match v with
  | VStr s =>
      if len s <? 1 then inl (lit "State name is required")
      else if 255 <? len s then inl (lit "State name must not exceed 255 characters")
      else inr s
  | _ => inl (invalidTypeMessage v)
  end.

(** [extractErrorMessage] *)
Definition extractErrorMessage (error : JsVal) : Completion JsVal :=
  let errs := prop error (lit "errors") in
  let generic := Normal (prop error (lit "message")) in
  if truthy errs && typeof_object errs then
    match keys errs with
    | firstKey :: _ =>
        if truthy (VStr firstKey) then
          let message := prop (prop errs firstKey) (lit "message") in
          if truthy message then
            match message with
            | VStr m =>
                let pretty := prettifyFieldName unicodeUpper firstKey in
                Normal (VStr (replace m firstKey pretty))
            | _ => Throw TypeError
            end
          else generic
        else generic
    | [] => generic
    end
  else generic.

(** [if (onSuccess) onSuccess(); else navigate("/states")] *)
Definition complete : M unit :=
  match onSuccess props with
  | Some cb => emit (CallOnSuccess cb)
  | None => navigate "/states"
  end.

(** The query function and [enabled] of [useQuery]. *)
Definition queryFn : Completion Effect :=
  if negb (has_stateId props) then Throw (Error (lit "State ID is required"))
  else Normal (Get (lit "/api/states/" ++ interpolate (stateId props))).

Definition query_enabled : bool := mode_eqb (mode props) edit && has_stateId props.

(** [retry: false]: a failed fetch is not tried again. *)
Definition query_retry : bool := false.

(** [queryKey: ["state", stateId]] *)
Definition queryKey : list JsVal := [VStr (lit "state"); stateId_val props].

(** A fetch of the query starts: the function runs; with no data yet the
    query is loading again and the error of an earlier fetch is dropped, with
    data the fetch goes on behind it. *)
Definition start_fetch : M unit :=
  fun st =>
    match queryFn with
    | Normal fetch =>
        (modify (fun s => if is_undefined (stateData s)
                          then set_query (stateData s) true None s
                          else set_isRefetching true s) ;;
         emit fetch) st
    | Throw e => modify (set_query (stateData st) false (Some (thrown e))) st
    end.

(** What the invalidation of the component's own query does: the query is
    mounted, so when it is enabled it is fetched again.  A fetch in flight
    behind data is cancelled and started anew; one in flight without data is
    left to run. *)
Definition refetch : M unit :=
  fun st =>
    if query_enabled then
      if isFetchingState st || isRefetching st then
        if is_undefined (stateData st) then skip st
        else match queryFn with
             | Normal fetch => emit fetch st
             | Throw _ => skip st
             end
      else start_fetch st
    else skip st.

(** [queryClient.invalidateQueries({ queryKey })] *)
Definition invalidateQueries (filterKey : list JsVal) : M unit :=
  emit (InvalidateQueries filterKey) ;;
  if key_prefix filterKey queryKey then refetch else skip.

(** The effect of [useEffect] on a change of [stateData]. *)
Definition sync_form_with_data : M unit :=
  fun st =>
    if truthy (stateData st) && mode_eqb (mode props) edit then
      form_reset (Some (VObj [(lit "stateName",
                               or_else (prop (stateData st) (lit "stateName"))
                                       (VStr []))])) st
    else skip st.

(** The fetch in flight brought [response]: data that compares equal to the
    data already there leaves [stateData] the same object, and the effect does
    not run. *)
Definition query_succeeded (response : JsVal) : M unit :=
  fun st =>
    if same_data (stateData st) response then
      modify (fun s => set_isRefetching false (set_query (stateData s) false None s)) st
    else
      (modify (fun s => set_isRefetching false (set_query response false None s)) ;;
       sync_form_with_data) st.

Definition query_failed (error : JsVal) : M unit :=
  modify (fun s => set_isRefetching false (set_query (stateData s) false (Some error) s)).

(** The error the query library records when the query function resolves
    with [undefined] (its message also names the query). *)
Definition undefined_data_error : JsVal := thrown (Error (lit "data is undefined")).

(** [mutate]: the new call is the one [isPending] follows; a call already
    in flight goes on unobserved. *)
Definition createMutation_mutate (data : JsVal) : M unit :=
  modify (fun s => set_createPending true
            (if createPending s
             then set_earlier (S (earlierCreates s)) (earlierUpdates s) s else s)) ;;
  emit (Post (lit "/api/states") data).

Definition updateMutation_mutate (data : JsVal) : M unit :=
  modify (fun s => set_updatePending true
            (if updatePending s
             then set_earlier (earlierCreates s) (S (earlierUpdates s)) s else s)) ;;
  emit (Put (lit "/api/states/" ++ interpolate (stateId props)) data).

Definition createMutation_onSuccess : M unit :=
  toast_success "State created successfully!" ;;
  invalidateQueries [VStr (lit "states")] ;;
  form_reset None ;;
  complete.

Definition updateMutation_onSuccess : M unit :=
  toast_success "State updated successfully!" ;;
  invalidateQueries [VStr (lit "states")] ;;
  invalidateQueries [VStr (lit "state"); stateId_val props] ;;
  complete.

(** The body shared by the two [onError] handlers; when
    [extractErrorMessage] throws, the handler stops there. *)
Definition mutation_onError (label fallback : string) (error : JsVal) : M unit :=
  console_error label error ;;
  match extractErrorMessage error with
  | Normal extracted =>
      let message := or_else extracted (VStr (lit fallback)) in
      toast_error message ;;
      modify (fun st => set_form (value st) (defaultValue st)
                                 (Validate error (errors st)) st)
  | Throw _ => skip
  end.

Definition createMutation_onError : JsVal -> M unit :=
  mutation_onError "Create state error:" "Failed to create state".

Definition updateMutation_onError : JsVal -> M unit :=
  mutation_onError "Update state error:" "Failed to update state".

Definition onSubmit (data : JsVal) : M unit :=
  if mode_eqb (mode props) create then createMutation_mutate data
  else updateMutation_mutate data.

(** [form.handleSubmit(onSubmit)]: the resolver validates the form's
    values; with an issue the field error is set and [onSubmit] is not
    called, otherwise the errors are cleared and [onSubmit] receives the
    parsed values.  Either way the form counts as submitted from then on.
    The resolver is asynchronous, but the values it checks and hands on are
    those the form held at the click. *)
Definition handleSubmit : M unit :=
  fun st =>
    match stateFormSchema (value st) with
    | inl message =>
        modify (fun s => set_isSubmitted true
                  (set_form (value s) (defaultValue s)
                            {[ lit "stateName" := message ]} s)) st
    | inr s =>
        (modify (set_form (value st) (defaultValue st) ∅) ;;
         onSubmit (VObj [(lit "stateName", VStr s)]) ;;
         modify (set_isSubmitted true)) st
    end.

(** The change of the input: the field takes the text, and once the form
    has been submitted the field is validated again: its error is replaced or
    removed. *)
Definition revalidated (v : JsVal) (errs : gmap str str) : gmap str str :=
  match stateFormSchema v with
  | inl message => <[ lit "stateName" := message ]> errs
  | inr _ => delete (lit "stateName") errs
  end.

Definition onChange (text : str) : M unit :=
  modify (fun s =>
    set_form (VStr text) (defaultValue s)
             (if isSubmitted s then revalidated (VStr text) (errors s) else errors s)
             s).

Definition handleCancel : M unit := complete.

(** [fetchError] in a condition: its truthiness. *)
Definition is_set (error : option JsVal) : bool :=
  match error with
  | Some e => truthy e
  | None => false
  end.

Definition isFormLoading (st : State) : bool :=
  createPending st || updatePending st || isFetchingState st.

(** What the component renders. *)
Record FormView : Type := {
  input_value : JsVal;
  input_disabled : bool;
  field_message : option str;
  cancel_disabled : bool;
  submit_disabled : bool;
  submit_label : str;
}.

Inductive View : Type :=
  | LoadingView
  | FetchFailedView
  | FormShown (f : FormView).

Definition render (st : State) : View :=
  if mode_eqb (mode props) edit && isFetchingState st then LoadingView
  else if mode_eqb (mode props) edit && is_set (fetchError st)
  then FetchFailedView
  else FormShown
    {| input_value := value st;
       input_disabled := isFormLoading st;
       field_message := errors st !! lit "stateName";
       cancel_disabled := isFormLoading st;
       submit_disabled := isFormLoading st;
       submit_label :=
         (if mode_eqb (mode props) create then lit "Create" else lit "Update")
         ++ lit " State" |}.

(** The first render of a freshly mounted component, with nothing in the
    query cache: the form starts from [defaultValues], the query runs its
    function when it is enabled. *)
Definition initial : State :=
  {| value := VStr []; defaultValue := VStr []; errors := ∅; isSubmitted := false;
     stateData := VUndefined; isFetchingState := false; isRefetching := false;
     fetchError := None;
     createPending := false; updatePending := false;
     earlierCreates := 0; earlierUpdates := 0 |}.

Definition mount : Completion (State * list Effect) :=
  if query_enabled then
    match queryFn with
    | Normal fetch => Normal (set_query VUndefined true None initial, [fetch])
    | Throw e => Normal (set_query VUndefined false (Some (thrown e)) initial, [])
    end
  else Normal (initial, []).

(** What reaches a mounted component: the settlement of its requests (of
    the fetch in flight, of the mutation call [isPending] follows, of an
    earlier call) and the user's actions on the controls. *)
Inductive Event : Type :=
  | FetchResolved (response : JsVal)
  | FetchRejected (error : JsVal)
  | CreateResolved
  | CreateRejected (error : JsVal)
  | UpdateResolved
  | UpdateRejected (error : JsVal)
  | EarlierCreateResolved
  | EarlierCreateRejected (error : JsVal)
  | EarlierUpdateResolved
  | EarlierUpdateRejected (error : JsVal)
  | TypeText (text : str)
  | ClickSubmit
  | ClickCancel
  | ClickBack.

(** The delivery of an event while [dom] is what the last render put on the
    screen.  A control answers only when it is in [dom] and not disabled
    there; its handler then works on the hook state as it is now, which a
    render may not have caught up with.  A settlement is delivered only to a
    request in flight; the handlers of a mutation run before its [isPending]
    falls. *)
Definition deliver (dom : View) (ev : Event) : M unit :=
  fun st =>
    match ev with
    | FetchResolved response =>
        if isFetchingState st || isRefetching st then
          if is_undefined response then query_failed undefined_data_error st
          else query_succeeded response st
        else skip st
    | FetchRejected error =>
        if isFetchingState st || isRefetching st then
          (console_error "Failed to fetch state data:" error ;;
           if query_retry
           then emit (Get (lit "/api/states/" ++ interpolate (stateId props)))
           else query_failed error) st
        else skip st
    | CreateResolved =>
        if createPending st then
          (createMutation_onSuccess ;;
           modify (set_createPending false)) st
        else skip st
    | CreateRejected error =>
        if createPending st then
          (createMutation_onError error ;;
           modify (set_createPending false)) st
        else skip st
    | UpdateResolved =>
        if updatePending st then
          (updateMutation_onSuccess ;;
           modify (set_updatePending false)) st
        else skip st
    | UpdateRejected error =>
        if updatePending st then
          (updateMutation_onError error ;;
           modify (set_updatePending false)) st
        else skip st
    | EarlierCreateResolved =>
        match earlierCreates st with
        | S n =>
            (createMutation_onSuccess ;;
             modify (fun s => set_earlier n (earlierUpdates s) s)) st
        | O => skip st
        end
    | EarlierCreateRejected error =>
        match earlierCreates st with
        | S n =>
            (createMutation_onError error ;;
             modify (fun s => set_earlier n (earlierUpdates s) s)) st
        | O => skip st
        end
    | EarlierUpdateResolved =>
        match earlierUpdates st with
        | S n =>
            (updateMutation_onSuccess ;;
             modify (fun s => set_earlier (earlierCreates s) n s)) st
        | O => skip st
        end
    | EarlierUpdateRejected error =>
        match earlierUpdates st with
        | S n =>
            (updateMutation_onError error ;;
             modify (fun s => set_earlier (earlierCreates s) n s)) st
        | O => skip st
        end
    | TypeText text =>
        match dom with
        | FormShown f => if input_disabled f then skip st else onChange text st
        | _ => skip st
        end
    | ClickSubmit =>
        match dom with
        | FormShown f => if submit_disabled f then skip st else handleSubmit st
        | _ => skip st
        end
    | ClickCancel =>
        match dom with
        | FormShown f => if cancel_disabled f then skip st else handleCancel st
        | _ => skip st
        end
    | ClickBack =>
        match dom with
        | FetchFailedView => navigate "/states" st
        | _ => skip st
        end
    end.

(** An event that arrives once the component has rendered its current
    state: the screen is up to date. *)
Definition dispatch (ev : Event) : M unit :=
  fun st => deliver (render st) ev st.

Definition step (st : State) (ev : Event) : State * list Effect :=
  exec (dispatch ev) st.

(** A run of events from a state, each arriving after the render of the
    one before: the final state and the whole trace. *)
Fixpoint run (st : State) (evs : list Event) : State * list Effect :=
  match evs with
  | [] => (st, [])
  | ev :: rest =>
      let '(st1, t1) := step st ev in
      let '(st2, t2) := run st1 rest in
      (st2, t1 ++ t2)
  end.

(** A run in which renders are occurrences of their own: an event that
    arrives before the next render meets the screen of the last one. *)
Inductive Occurrence : Type :=
  | Arrives (ev : Event)
  | Rerender.

Fixpoint run_staged (st : State) (dom : View) (os : list Occurrence)
    : State * View * list Effect :=
  match os with
  | [] => (st, dom, [])
  | Arrives ev :: rest =>
      let '(st1, t1) := exec (deliver dom ev) st in
      let '(st2, dom2, t2) := run_staged st1 dom rest in
      (st2, dom2, t1 ++ t2)
  | Rerender :: rest => run_staged st (render st) rest
  end.

(** The controls a view offers. *)
Inductive Control : Type := NameInput | CancelButton | SubmitButton | BackButton.

Definition controls (v : View) : list Control :=
  match v with
  | LoadingView => []
  | FetchFailedView => [BackButton]
  | FormShown f =>
      (if input_disabled f then [] else [NameInput]) ++
      (if cancel_disabled f then [] else [CancelButton]) ++
      (if submit_disabled f then [] else [SubmitButton])
  end.

(** The states a mounted component can be in: those a run of events
    reaches from its first render. *)
Definition reachable (st : State) : Prop :=
  exists st0 t0 evs, mount = Normal (st0, t0) /\ (run st0 evs).1 = st.

(** The one request of a submission: the creation in Create mode, the
    update of the state in Edit mode. *)
Definition request (data : JsVal) : Effect :=
  match mode props with
  | create => Post (lit "/api/states") data
  | edit => Put (lit "/api/states/" ++ interpolate (stateId props)) data
  end.

(** The message of the first field-level error of a rejection reason, when
    the [errors] object has a first key that is not empty; [undefined]
    otherwise. *)
Definition first_field_message (error : JsVal) : JsVal :=
  match prop error (lit "errors") with
  | VObj ((k, entry) :: _) =>
      if truthy (VStr k) then prop entry (lit "message") else VUndefined
  | _ => VUndefined
  end.

(** The texts of the error notifications in a trace. *)
Definition error_toasts (t : list Effect) : list JsVal :=
  flat_map (fun e => match e with ToastError text => [text] | _ => [] end) t.

(** The one completion action of a handler: the caller's callback when
    there is one, else the navigation to the list. *)
Definition completion : Effect :=
  match onSuccess props with
  | Some cb => CallOnSuccess cb
  | None => Navigate (lit "/states")
  end.

Definition nullish (v : JsVal) : bool :=
  match v with
  | VUndefined | VNull => true
  | _ => false
  end.

(** What holds of every reachable state (see [reachable_consistent]). *)
Record consistent (st : State) : Prop := {
  create_default : mode props = create -> defaultValue st = VStr [];
  create_pending_mode : createPending st = true -> mode props = create;
  update_pending_mode : updatePending st = true -> mode props = edit;
  no_earlier_calls : earlierCreates st = 0%nat /\ earlierUpdates st = 0%nat;
  loading_alone :
    isFetchingState st = true ->
    mode props = edit /\ stateData st = VUndefined /\ isRefetching st = false /\
    createPending st = false /\ updatePending st = false;
  value_not_nullish : nullish (value st) = false;
  default_not_nullish : nullish (defaultValue st) = false;
}.

(** The display state after a failed fetch: the error is there and nothing
    is in flight. *)
Record fetch_failed (st : State) : Prop := {
  failed_mode : mode props = edit;
  failed_settled : isFetchingState st = false /\ isRefetching st = false;
  failed_error : is_set (fetchError st) = true;
  failed_no_create : createPending st = false /\ earlierCreates st = 0%nat;
  failed_no_update : updatePending st = false /\ earlierUpdates st = 0%nat;
}.

End Component.

End StateForm.

(** ** Concrete components

    Two mounted components, one per mode, with the parameters fixed: states
    and runs the properties below are exercised on. *)

Module Examples.

Import Js Json StateForm.

Definition asciiOnly : str -> str := fun s => s.
Definition noValidate : JsVal -> gmap str str -> gmap str str := fun _ errs => errs.
Definition noMessage : JsVal -> str := fun _ => [].

Definition createProps : StateFormProps :=
  {| mode := create; stateId := None; onSuccess := None |}.

Definition editProps : StateFormProps :=
  {| mode := edit; stateId := Some (lit "7"); onSuccess := Some (callback 1) |}.

Definition editPropsNoId : StateFormProps :=
  {| mode := edit; stateId := None; onSuccess := None |}.

(** Create mode after the user typed a name, and after the submit click. *)
Definition typed : State :=
  (run asciiOnly noValidate noMessage createProps initial [TypeText (lit "Goa")]).1.

Definition creating : State :=
  (run asciiOnly noValidate noMessage createProps initial
       [TypeText (lit "Goa"); ClickSubmit]).1.

(** Edit mode while the fetch is in flight, and later while the update is. *)
Definition fetching : State := set_query VUndefined true None initial.

Definition updating : State :=
  (run asciiOnly noValidate noMessage editProps fetching
       [FetchResolved (VObj [(lit "id", VNum 7); (lit "stateName", VStr (lit "Texas"))]);
        ClickSubmit]).1.



(** Edit mode with a second update in flight when the fetch that followed
    the first one fails. *)
Definition updatingAfterFailedRefetch : State :=
  (run asciiOnly noValidate noMessage editProps fetching
       [FetchResolved (VObj [(lit "id", VNum 7); (lit "stateName", VStr (lit "Texas"))]);
        ClickSubmit; UpdateResolved; ClickSubmit;
        FetchRejected (VObj [(lit "message", VStr (lit "Network Error"))])]).1.

(** A rejection whose first field key holds a dollar pattern. *)
Definition dollarKeyError : JsVal :=
  VObj [(lit "errors",
         VObj [(lit "a$&", VObj [(lit "message", VStr (lit "a$& bad"))])])].

End Examples.


(** ** The two callers of the form

    [CreateState] and [EditState] render [StateForm] with the mode fixed;
    each is the props it passes on ([className] apart). *)

Module Callers.

Import Js Json StateForm.

(** [CreateState] of CreateState.tsx: no [stateId]. *)
Definition CreateState (onSuccess : option Callback) : StateFormProps :=
  {| mode := create; stateId := None; onSuccess := onSuccess |}.

(** [EditState] of EditState.tsx: its [stateId] is a required string. *)
Definition EditState (stateId : str) (onSuccess : option Callback) : StateFormProps :=
  {| mode := edit; stateId := Some stateId; onSuccess := onSuccess |}.

End Callers.

(** ** What is said of requests and of states *)

Module Notions.

Import Js Json StateForm.

(** The body of a submission: [{stateName: name}]. *)
Definition payload (name : str) : JsVal := VObj [(lit "stateName", VStr name)].

Definition valid_name (name : str) : Prop := 1 <= len name <= 255.

(** A network call a mounted form may send after its first render: the
    creation or the update of its mode, with a valid name, or the fetch of its
    own state again, which only an enabled query sends. *)
Definition sent_by (props : StateFormProps) (e : Effect) : Prop :=
  match e with
  | Get url =>
      query_enabled props = true
      /\ url = lit "/api/states/" ++ interpolate (stateId props)
  | Post url data =>
      mode props = create /\ url = lit "/api/states"
      /\ exists name, data = payload name /\ valid_name name
  | Put url data =>
      mode props = edit
      /\ url = lit "/api/states/" ++ interpolate (stateId props)
      /\ exists name, data = payload name /\ valid_name name
  | _ => True
  end.

(** The call is a submission: a creation or an update. *)
Definition is_submission (e : Effect) : bool :=
  match e with
  | Post _ _ | Put _ _ => true
  | _ => false
  end.

(** No event of the list is a success of the fetch, and each failure of it
    carries a truthy reason. *)
Definition fetch_only_fails (evs : list Event) : Prop :=
  Forall (fun ev => match ev with
                    | FetchResolved response => is_undefined response = true
                    | FetchRejected error => truthy error = true
                    | _ => True
                    end) evs.

(** The string starts with white space. *)
Definition starts_white (s : str) : bool :=
  match s with
  | [] => false
  | c :: _ => is_white c
  end.

End Notions.

(** ** The layout shell

    The theme logic of [MainLayout] (MainLayout.tsx): the initial choice
    between the stored theme and the system preference, the effect that keeps
    the class [dark] of the document element in step, the listener on the
    system preference, and [toggleDarkMode].  The browser is the state the
    component reads and writes: [localStorage], the answer of
    [matchMedia("(prefers-color-scheme: dark)")], and the class list of the
    document element.  The rendered markup is constant and left out. *)

Module MainLayout.

Import Js Json.

Record Browser : Type := {
  localStorage : gmap str str;
  prefersDark : bool;
  classList : gset str;
}.

(** [localStorage.getItem(key)]: [None] is [null]. *)
Definition getItem (key : string) (b : Browser) : option str :=
  localStorage b !! lit key.

(** [localStorage.setItem(key, value)] *)
Definition setItem (key : string) (v : str) (b : Browser) : Browser :=
  {| localStorage := <[lit key := v]> (localStorage b);
     prefersDark := prefersDark b;
     classList := classList b |}.

(** The truthiness of what [getItem] returns: a string that is not empty. *)
Definition present (item : option str) : bool :=
  match item with
  | Some s => truthy (VStr s)
  | None => false
  end.

(** [document.documentElement.classList.toggle("dark", force)] *)
Definition toggleClass (force : bool) (b : Browser) : Browser :=
  {| localStorage := localStorage b;
     prefersDark := prefersDark b;
     classList := if force then {[ lit "dark" ]} ∪ classList b
                  else classList b ∖ {[ lit "dark" ]} |}.

Definition setPreference (m : bool) (b : Browser) : Browser :=
  {| localStorage := localStorage b;
     prefersDark := m;
     classList := classList b |}.

(** The component: its state [isDarkMode] and the browser it lives in. *)
Record Layout : Type := {
  isDarkMode : bool;
  browser : Browser;
}.

(** The initializer of [useState]. *)
Definition initialDarkMode (b : Browser) : bool :=
  match getItem "theme" b with
  | Some savedTheme =>
      if truthy (VStr savedTheme) then str_eqb savedTheme (lit "dark")
      else prefersDark b
  | None => prefersDark b
  end.

Section Parsing.

(** Whether [JSON.parse] accepts a text; the parser itself is the
    runtime's. *)
Variable jsonParses : str -> bool.

(** [storedUserData ? JSON.parse(storedUserData) : null] is evaluated at each
    render and throws on a stored text that does not parse. *)
Definition userData_renders (b : Browser) : bool :=
  match getItem "user" b with
  | Some storedUserData =>
      if truthy (VStr storedUserData) then jsonParses storedUserData else true
  | None => true
  end.

(** The first render and the effect after it; [None] when the render
    throws. *)
Definition mount (b : Browser) : option Layout :=
  if userData_renders b then
    let dark := initialDarkMode b in
    Some {| isDarkMode := dark; browser := toggleClass dark b |}
  else None.

End Parsing.

(** The effect with the dependency [isDarkMode]: it runs when the state
    changed. *)
Definition setIsDarkMode (dark : bool) (l : Layout) : Layout :=
  {| isDarkMode := dark;
     browser := if Bool.eqb dark (isDarkMode l) then browser l
                else toggleClass dark (browser l) |}.

(** [handleChange], the listener on the system preference. *)
Definition handleChange (matches : bool) (l : Layout) : Layout :=
  if negb (present (getItem "theme" (browser l))) then setIsDarkMode matches l
  else l.

(** [toggleDarkMode] *)
Definition toggleDarkMode (l : Layout) : Layout :=
  let newDarkMode := negb (isDarkMode l) in
  let l' := setIsDarkMode newDarkMode l in
  {| isDarkMode := isDarkMode l';
     browser := setItem "theme" (if newDarkMode then lit "dark" else lit "light")
                        (browser l') |}.

Inductive Event : Type :=
  | PreferenceChanged (matches : bool)
  | Toggle.

Definition step (l : Layout) (ev : Event) : Layout :=
  match ev with
  | PreferenceChanged matches =>
      handleChange matches
        {| isDarkMode := isDarkMode l; browser := setPreference matches (browser l) |}
  | Toggle => toggleDarkMode l
  end.

Definition run (l : Layout) (evs : list Event) : Layout := foldl step l evs.

Definition is_preference_change (ev : Event) : bool :=
  match ev with
  | PreferenceChanged _ => true
  | Toggle => false
  end.

(** A browser with nothing stored, a system set to dark, and one class on
    the document element; the layout mounted in it. *)
Definition freshBrowser : Browser :=
  {| localStorage := ∅; prefersDark := true; classList := {[ lit "h-full" ]} |}.

Definition freshLayout : Layout :=
  {| isDarkMode := true; browser := toggleClass true freshBrowser |}.

(** The state agrees with its surroundings: the class [dark] is set exactly
    in dark mode, and the mode is what the initializer would choose now. *)
Record in_step (l : Layout) : Prop := {
  class_in_step : lit "dark" ∈ classList (browser l) <-> isDarkMode l = true;
  mode_in_step : isDarkMode l = initialDarkMode (browser l);
}.

End MainLayout.

(** * Properties *)

(** ** The error-label mapping *)

Module LabelFacts.

Import Js.

Section Casing.

Variable unicodeUpper : str -> str.

Local Abbreviation toUpperCase := (toUpperCase unicodeUpper).
Local Abbreviation canonicalize := (canonicalize unicodeUpper).
Local Abbreviation matches_to_end_i := (matches_to_end_i unicodeUpper).
Local Abbreviation replace_key_id_suffix := (replace_key_id_suffix unicodeUpper).
Local Abbreviation prettifyFieldName := (prettifyFieldName unicodeUpper).

Local Ltac decide_letters :=
  repeat match goal with
         | |- context [?a <=? ?b] => destruct (N.leb_spec a b)
         end;
  cbn [andb orb];
  repeat match goal with
         | |- context [?a =? ?b] => destruct (N.eqb_spec a b)
         end;
  cbn [andb orb]; try reflexivity; exfalso; lia.

Lemma toUpperCase_ascii_unit c :
  c < 128 -> toUpperCase [c] = [ascii_upper c].
Proof.
  intros Hc. unfold Js.toUpperCase, is_ascii. simpl.
  apply N.ltb_lt in Hc. now rewrite Hc.
Qed.

Lemma canonicalize_ascii c : c < 128 -> canonicalize c = ascii_upper c.
Proof.
  intros Hc. unfold Js.canonicalize. rewrite toUpperCase_ascii_unit by exact Hc.
  replace (128 <=? c) with false; [reflexivity|].
  symmetry. apply N.leb_gt. exact Hc.
Qed.

(** A unit outside ASCII keeps a canonical form outside ASCII. *)
Lemma canonicalize_beyond_ascii c : 128 <= c -> 128 <= canonicalize c.
Proof.
  intros Hc. unfold Js.canonicalize.
  destruct (toUpperCase [c]) as [|cu [|? ?]]; try exact Hc.
  apply N.leb_le in Hc. rewrite Hc. simpl.
  destruct (cu <? 128) eqn:E; [now apply N.leb_le|].
  now apply N.ltb_ge in E.
Qed.

(** Under the [i] flag a letter of the pattern matches its two cases and
    nothing else. *)
Lemma canonicalize_letter c p :
  Spec.lower_letter p ->
  (canonicalize c =? canonicalize p) = Spec.same_letter c p.
Proof.
  intros Hp. unfold Spec.lower_letter in Hp.
  rewrite (canonicalize_ascii p) by lia.
  unfold Spec.same_letter.
  destruct (N.lt_ge_cases c 128) as [Hc|Hc].
  - rewrite canonicalize_ascii by exact Hc. unfold ascii_upper.
    decide_letters.
  - pose proof (canonicalize_beyond_ascii c Hc) as Hcan.
    unfold ascii_upper.
    decide_letters.
Qed.

Lemma matches_to_end_i_same_word pat s :
  Forall Spec.lower_letter pat ->
  matches_to_end_i pat s = Spec.same_word s pat.
Proof.
  intros Hpat. revert s.
  induction Hpat as [|p pat Hp _ IH]; intros [|c s]; simpl; try reflexivity.
  now rewrite canonicalize_letter, IH.
Qed.

Lemma lower_key : Forall Spec.lower_letter (lit "key").
Proof. repeat constructor; unfold Spec.lower_letter; vm_compute; intuition discriminate. Qed.

Lemma lower_id : Forall Spec.lower_letter (lit "id").
Proof. repeat constructor; unfold Spec.lower_letter; vm_compute; intuition discriminate. Qed.

Lemma same_word_length s word :
  Spec.same_word s word = true -> length s = length word.
Proof.
  revert word. induction s as [|c s IH]; intros [|p word]; simpl;
    try discriminate; try reflexivity.
  intros H. apply andb_true_iff in H as [_ H]. f_equal. now apply IH.
Qed.

(** A word ends [c :: s] when it is all of it or ends [s]. *)
Lemma ends_with_cons word c s :
  word <> [] ->
  Spec.ends_with word (c :: s) =
  Spec.same_word (c :: s) word || Spec.ends_with word s.
Proof.
  intros Hne. unfold Spec.ends_with.
  destruct (le_lt_dec (length word) (length s)) as [Hle|Hlt].
  - replace (length (c :: s) - length word)%nat
      with (S (length s - length word)) by (simpl; lia).
    simpl drop.
    destruct (Spec.same_word (c :: s) word) eqn:E; [|reflexivity].
    apply same_word_length in E. simpl in E. lia.
  - replace (length (c :: s) - length word)%nat with 0%nat by (simpl; lia).
    replace (length s - length word)%nat with 0%nat by lia.
    rewrite !drop_0.
    destruct (Spec.same_word s word) eqn:E.
    + apply same_word_length in E. lia.
    + now rewrite orb_false_r.
Qed.

Lemma ends_with_length word s :
  Spec.ends_with word s = true -> (length word <= length s)%nat.
Proof.
  unfold Spec.ends_with. intros H. apply same_word_length in H.
  rewrite length_drop in H. lia.
Qed.

(** Step 2: the regular expression cuts exactly one trailing word. *)
Lemma replace_key_id_suffix_spec s :
  replace_key_id_suffix s = Spec.strip_suffix s.
Proof.
  induction s as [|c s IH].
  - reflexivity.
  - cbn [Js.replace_key_id_suffix].
    rewrite !matches_to_end_i_same_word by (apply lower_key || apply lower_id).
    unfold Spec.strip_suffix.
    rewrite !ends_with_cons by discriminate.
    destruct (Spec.same_word (c :: s) (lit "key")) eqn:Ek.
    + apply same_word_length in Ek. simpl orb. cbv iota.
      rewrite Ek. reflexivity.
    + destruct (Spec.same_word (c :: s) (lit "id")) eqn:Ei.
      * apply same_word_length in Ei. simpl orb.
        destruct (Spec.ends_with (lit "key") s) eqn:Ek'.
        { apply ends_with_length in Ek'. simpl in Ei, Ek'. lia. }
        rewrite Ei. reflexivity.
      * simpl orb. rewrite IH. unfold Spec.strip_suffix.
        destruct (Spec.ends_with (lit "key") s) eqn:Ek'.
        { apply ends_with_length in Ek'. simpl in Ek'.
          replace (length (c :: s) - 3)%nat with (S (length s - 3))
            by (simpl; lia).
          reflexivity. }
        destruct (Spec.ends_with (lit "id") s) eqn:Ei'; [|reflexivity].
        apply ends_with_length in Ei'. simpl in Ei'.
        replace (length (c :: s) - 2)%nat with (S (length s - 2))
          by (simpl; lia).
        reflexivity.
Qed.

(** Step 3: the space the code puts before a leading upper-case letter is
    removed by the trim that follows. *)
Lemma trim_replace_upper_spaced s :
  trim (replace_upper_spaced s) = trim (Spec.space_internal s).
Proof.
  destruct s as [|c s]; [reflexivity|].
  unfold replace_upper_spaced, Spec.space_internal. simpl flat_map.
  destruct (is_upper c); reflexivity.
Qed.

Lemma segment_spec key :
  (if (1 <? length (split (ch "_") key))%nat
   then nth 1 (split (ch "_") key) [] else key) = Spec.segment key.
Proof.
  unfold Spec.segment.
  destruct (split (ch "_") key) as [|a [|b l]]; reflexivity.
Qed.

Lemma capitalize_spec s :
  toUpperCase (charAt 0 s) ++ slice 1 s = Spec.capitalize unicodeUpper s.
Proof. destruct s; reflexivity. Qed.

(** C1.  [prettifyFieldName] computes, for every key, what the four steps
    of the specified algorithm compute: the second segment of the key split
    on [_] when there are several segments (else the key), without one
    trailing [key] or [id] in either case of its letters, a space before each
    upper-case letter but the first unit, trimmed, the first letter in upper
    case.  In particular [states_stateNameId] gives [State Name] and
    [states_stateKey] gives [State]. *)
Theorem prettifyFieldName_refines_spec :
  (forall key, prettifyFieldName key = Spec.prettify unicodeUpper key)
  /\ prettifyFieldName (lit "states_stateNameId") = lit "State Name"
  /\ prettifyFieldName (lit "states_stateKey") = lit "State".
Proof.
  split; [|split; vm_compute; reflexivity].
  intros key. unfold Js.prettifyFieldName, Spec.prettify.
  rewrite segment_spec, replace_key_id_suffix_spec, trim_replace_upper_spaced.
  apply capitalize_spec.
Qed.

(** C4, as the code has it.  The key [id] is all suffix: the mapping cuts
    it off whole and the label is the empty string. *)
Theorem prettifyFieldName_id_is_empty : prettifyFieldName (lit "id") = [].
Proof. vm_compute. reflexivity. Qed.

End Casing.

(** The string operations on small inputs. *)
Example split_keeps_empty_segments :
  split (ch "_") (lit "a__b_") = [lit "a"; []; lit "b"; []].
Proof. reflexivity. Qed.

Example trim_both_ends : trim (lit "  state Name ") = lit "state Name".
Proof. reflexivity. Qed.

Example replace_first_occurrence_only :
  replace (lit "id and id") (lit "id") (lit "Id") = lit "Id and id".
Proof. reflexivity. Qed.

Example prettify_camel_case up :
  prettifyFieldName up (lit "stateName") = lit "State Name".
Proof. vm_compute. reflexivity. Qed.

Example prettify_takes_second_segment up :
  prettifyFieldName up (lit "states_stateName_key") = lit "State Name".
Proof. vm_compute. reflexivity. Qed.

(** C4, as stated, fails: whatever the Unicode tables of the runtime, the
    label of the key [id] is not [Id]. *)
Lemma prettifyFieldName_id_is_not_Id :
  ~ (exists unicodeUpper, prettifyFieldName unicodeUpper (lit "id") = lit "Id").
Proof.
  intros [up H]. vm_compute in H. discriminate H.
Qed.

(** A template without a dollar sign stands for itself. *)
Lemma getSubstitution_plain matched before after template :
  ch "$" ∉ template ->
  getSubstitution matched before after template = template.
Proof.
  induction template as [|c rest IH]; intros Hno; [reflexivity|].
  apply not_elem_of_cons in Hno as [Hc Hrest].
  cbn [getSubstitution].
  destruct (N.eqb_spec c (ch "$")) as [->|_]; [contradiction|].
  now rewrite IH.
Qed.

(** With such a template, [replace] puts the template in the place of the
    first occurrence of the pattern. *)
Lemma replace_plain s pat template :
  ch "$" ∉ template ->
  replace s pat template = Spec.substitute_first s pat template.
Proof.
  intros Hno. unfold replace, Spec.substitute_first.
  destruct (indexOf pat s); [|reflexivity].
  now rewrite getSubstitution_plain.
Qed.

End LabelFacts.

(** ** The component *)

Module FormFacts.

Import Js Json StateForm.

Lemma str_eqb_eq a b : str_eqb a b = true <-> a = b.
Proof.
  revert b. induction a as [|x a IH]; intros [|y b]; simpl; split;
    try discriminate; try reflexivity.
  - intros H. apply andb_true_iff in H as [Hx Hab].
    apply N.eqb_eq in Hx. apply IH in Hab. now subst.
  - intros [= -> ->]. rewrite N.eqb_refl. now apply IH.
Qed.

Lemma truthy_not_nullish v : truthy v = true -> nullish v = false.
Proof. destruct v; simpl; congruence. Qed.

Lemma or_else_not_nullish a s : nullish (or_else a (VStr s)) = false.
Proof.
  unfold or_else. destruct (truthy a) eqn:E; [|reflexivity].
  now apply truthy_not_nullish.
Qed.

Lemma prop_of_falsy v k : truthy v = false -> prop v k = VUndefined.
Proof. destruct v; simpl; intros; congruence. Qed.

Lemma is_undefined_true v : is_undefined v = true -> v = VUndefined.
Proof. destruct v; simpl; congruence. Qed.


Ltac unfold_handlers :=
  unfold StateForm.step, exec, StateForm.dispatch, StateForm.deliver,
    StateForm.render,
    createMutation_onSuccess, updateMutation_onSuccess,
    createMutation_onError, updateMutation_onError, mutation_onError,
    StateForm.handleSubmit, handleCancel, onSubmit, onChange,
    createMutation_mutate, updateMutation_mutate,
    query_succeeded, query_failed, sync_form_with_data,
    invalidateQueries, StateForm.refetch, start_fetch, queryFn,
    form_reset, complete, toast_success, toast_error,
    navigate, console_error, emit, modify, skip,
    isFormLoading, mbind, M_bind, mret, M_ret in *.

Section Component.

Variable unicodeUpper : str -> str.
Variable Validate : JsVal -> gmap str str -> gmap str str.
Variable invalidTypeMessage : JsVal -> str.
Variable props : StateFormProps.

Local Abbreviation handleSubmit := (handleSubmit invalidTypeMessage props).
Local Abbreviation deliver := (deliver unicodeUpper Validate invalidTypeMessage props).
Local Abbreviation dispatch := (dispatch unicodeUpper Validate invalidTypeMessage props).
Local Abbreviation step := (step unicodeUpper Validate invalidTypeMessage props).
Local Abbreviation run := (run unicodeUpper Validate invalidTypeMessage props).
Local Abbreviation run_staged :=
  (run_staged unicodeUpper Validate invalidTypeMessage props).
Local Abbreviation reachable := (reachable unicodeUpper Validate invalidTypeMessage props).
Local Abbreviation render := (render props).
Local Abbreviation consistent := (consistent props).
Local Abbreviation completion := (completion props).
Local Abbreviation request := (request props).

(** *** Submission *)

Lemma stateFormSchema_string name :
  stateFormSchema invalidTypeMessage (VStr name) =
  if len name <? 1 then inl (lit "State name is required")
  else if 255 <? len name then inl (lit "State name must not exceed 255 characters")
  else inr name.
Proof. reflexivity. Qed.

Lemma exec_handleSubmit_valid st name :
  value st = VStr name -> 1 <= len name <= 255 ->
  (exec handleSubmit st).2 = [request (VObj [(lit "stateName", VStr name)])]
  /\ errors (exec handleSubmit st).1 = ∅
  /\ value (exec handleSubmit st).1 = value st
  /\ (createPending (exec handleSubmit st).1
      || updatePending (exec handleSubmit st).1) = true.
Proof.
  intros Hv Hlen. unfold exec, StateForm.handleSubmit.
  rewrite Hv, stateFormSchema_string.
  destruct (N.ltb_spec (len name) 1); [lia|].
  destruct (N.ltb_spec 255 (len name)); [lia|].
  unfold StateForm.request, onSubmit, createMutation_mutate, updateMutation_mutate,
    mbind, M_bind, modify, emit.
  destruct (mode props); simpl;
    destruct (createPending st) eqn:Hc, (updatePending st) eqn:Hu; simpl;
    rewrite ?Hc, ?Hu, ?orb_true_r; repeat split; reflexivity.
Qed.

Lemma exec_handleSubmit_invalid st name :
  value st = VStr name -> len name = 0 \/ 255 < len name ->
  exists message,
    exec handleSubmit st =
    (set_isSubmitted true
       (set_form (value st) (defaultValue st) {[ lit "stateName" := message ]} st),
     []).
Proof.
  intros Hv Hlen. unfold exec, StateForm.handleSubmit.
  rewrite Hv, stateFormSchema_string.
  unfold modify.
  destruct (N.ltb_spec (len name) 1); [eexists; simpl; rewrite Hv; reflexivity|].
  destruct (N.ltb_spec 255 (len name)); [eexists; simpl; rewrite Hv; reflexivity|lia].
Qed.

(** C2.  Submitting a name issues exactly one network call, the creation
    in Create mode and the update in Edit mode, carrying that name and
    leaving no field error, when the name has 1 to 255 units; an empty or
    longer name issues no call and leaves an error on the name field.  So
    there is exactly one call if and only if the length is in 1..255. *)
Theorem submit_calls_network_iff_valid (st : State) (name : str) :
  value st = VStr name ->
  let r := exec handleSubmit st in
  (1 <= len name <= 255 ->
     r.2 = [request (VObj [(lit "stateName", VStr name)])] /\ errors r.1 = ∅)
  /\ (len name = 0 \/ 255 < len name ->
     r.2 = [] /\ is_Some (errors r.1 !! lit "stateName"))
  /\ (length (List.filter is_network r.2) = 1%nat <-> 1 <= len name <= 255).
Proof.
  intros Hv r. subst r.
  assert (Hvalid : 1 <= len name <= 255 ->
    (exec handleSubmit st).2 = [request (VObj [(lit "stateName", VStr name)])]
    /\ errors (exec handleSubmit st).1 = ∅).
  { intros Hlen. destruct (exec_handleSubmit_valid st name Hv Hlen) as (Ht & He & _).
    now split. }
  assert (Hinvalid : len name = 0 \/ 255 < len name ->
    (exec handleSubmit st).2 = []
    /\ is_Some (errors (exec handleSubmit st).1 !! lit "stateName")).
  { intros Hlen.
    destruct (exec_handleSubmit_invalid st name Hv Hlen) as [message ->].
    split; [reflexivity|]. simpl. rewrite lookup_singleton_eq. eauto. }
  split; [exact Hvalid|]. split; [exact Hinvalid|].
  split.
  - intros Hone.
    destruct (N.eq_dec (len name) 0) as [H0|H0];
      [destruct Hinvalid as [Ht _]; [now left|]; rewrite Ht in Hone; discriminate|].
    destruct (N.lt_ge_cases 255 (len name)) as [Hbig|Hsmall];
      [destruct Hinvalid as [Ht _]; [now right|]; rewrite Ht in Hone; discriminate|].
    lia.
  - intros Hlen. destruct (Hvalid Hlen) as [-> _].
    unfold StateForm.request. destruct (mode props); reflexivity.
Qed.

(** *** The invalidation of queries *)

(** The key of the list, [["states"]], does not match the component's
    query: that invalidation is a call and no more. *)
Lemma invalidate_list st :
  invalidateQueries props [VStr (lit "states")] st =
  (tt, st, [InvalidateQueries [VStr (lit "states")]]).
Proof. reflexivity. Qed.

Lemma same_data_stateId : same_data (stateId_val props) (stateId_val props) = true.
Proof.
  unfold stateId_val. destruct (stateId props) as [id|]; simpl; [|reflexivity].
  now apply str_eqb_eq.
Qed.

Lemma queryKey_matches_itself :
  key_prefix [VStr (lit "state"); stateId_val props] (queryKey props) = true.
Proof.
  unfold queryKey, stateId_val. destruct (stateId props) as [id|]; simpl; [|reflexivity].
  rewrite andb_true_r. now apply str_eqb_eq.
Qed.

(** The key [["state", stateId]] is the query's own: it is fetched again
    when it is enabled.  That touches the query and nothing of the form or of
    the mutations, and sends the fetch or nothing. *)
Lemma invalidate_own st :
  exists st' gets,
    invalidateQueries props [VStr (lit "state"); stateId_val props] st =
    (tt, st', InvalidateQueries [VStr (lit "state"); stateId_val props] :: gets)
    /\ (gets = [] \/
        (query_enabled props = true /\
         gets = [Get (lit "/api/states/" ++ interpolate (stateId props))]))
    /\ value st' = value st /\ defaultValue st' = defaultValue st
    /\ errors st' = errors st /\ isSubmitted st' = isSubmitted st
    /\ createPending st' = createPending st /\ updatePending st' = updatePending st
    /\ earlierCreates st' = earlierCreates st /\ earlierUpdates st' = earlierUpdates st
    /\ (isFetchingState st' = true ->
        isFetchingState st = true
        \/ (query_enabled props = true /\ stateData st = VUndefined
            /\ isRefetching st = false /\ isRefetching st' = false))
    /\ stateData st' = stateData st.
Proof.
  unfold invalidateQueries. rewrite queryKey_matches_itself.
  unfold StateForm.refetch, start_fetch, queryFn, query_enabled, mbind, M_bind,
    emit, modify, skip, mret, M_ret.
  destruct (mode_eqb (mode props) edit); simpl;
    [|eexists _, []; repeat split; auto].
  destruct (has_stateId props); simpl; [|eexists _, []; repeat split; auto].
  destruct (isFetchingState st) eqn:Hf; simpl.
  - destruct (is_undefined (stateData st)) eqn:Hu; simpl.
    + eexists _, []. repeat split; auto.
    + eexists _, [_]. repeat split; auto.
  - destruct (isRefetching st) eqn:Hr; simpl.
    + destruct (is_undefined (stateData st)) eqn:Hu; simpl.
      * eexists _, []. repeat split; auto. congruence.
      * eexists _, [_]. repeat split; auto. congruence.
    + destruct (is_undefined (stateData st)) eqn:Hu; simpl.
      * eexists _, [_]. repeat split; auto. intros _. right.
        repeat split; auto. now apply is_undefined_true.
      * eexists _, [_]. repeat split; auto. simpl. congruence.
Qed.


(** *** Reachable states *)

Lemma mount_normal : exists st0 t0, mount props = Normal (st0, t0).
Proof.
  unfold mount. destruct (query_enabled props); [|eauto].
  destruct (queryFn props); eauto.
Qed.

Lemma mount_consistent st0 t0 :
  mount props = Normal (st0, t0) -> consistent st0.
Proof.
  unfold mount, query_enabled.
  destruct (mode props) eqn:Hm; simpl.
  - intros [= <- <-]. constructor; simpl; try reflexivity; try discriminate.
    all: intros; repeat split; congruence.
  - destruct (has_stateId props) eqn:Hid; simpl.
    + unfold queryFn. rewrite Hid. simpl. intros [= <- <-].
      constructor; simpl; try reflexivity; try discriminate.
      all: intros; repeat split; congruence.
    + intros [= <- <-]. constructor; simpl; try reflexivity; try discriminate.
      all: intros; repeat split; congruence.
Qed.

Lemma step_consistent st ev : consistent st -> consistent (step st ev).1.
Proof.
  intros [Hd Hc Hu [He1 He2] Hf Hv Hdv].
  destruct st as [v d errs sub sd fetching refetching fe cp up ec eu].
  simpl in *. subst ec eu.
  destruct ev; unfold_handlers; unfold query_enabled; simpl.
  all: rewrite ?same_data_stateId; simpl.
  all: repeat match goal with
       | |- context [extractErrorMessage ?u ?e] =>
           destruct (extractErrorMessage u e)
       | |- context [stateFormSchema ?i ?x] => destruct (stateFormSchema i x)
       | |- context [onSuccess props] => destruct (onSuccess props)
       | |- context [if ?b then _ else _] => destruct b eqn:?
       end; simpl.
  all: constructor; simpl; intros;
    rewrite ?or_else_not_nullish; simpl;
    try reflexivity; try assumption; try discriminate;
    try (destruct (mode props); simpl in *; rewrite ?andb_false_r in *;
         intuition congruence).
  all: repeat match goal with
       | H : orb _ _ = false |- _ => apply orb_false_elim in H as [? ?]
       | H : is_undefined _ = true |- _ => apply is_undefined_true in H
       end.
  all: subst; simpl in *; try discriminate.
  all: try (destruct (mode props); simpl in *; destruct cp;
    intuition congruence).
  all: repeat match goal with
       | H : orb _ _ = false |- _ => apply orb_false_elim in H as [? ?]
       end; congruence.
Qed.


Lemma run_consistent evs : forall st, consistent st -> consistent (run st evs).1.
Proof.
  induction evs as [|ev evs IH]; intros st Hst; [exact Hst|].
  simpl. pose proof (step_consistent st ev Hst) as H1.
  destruct (step st ev) as [st1 t1]. simpl in H1.
  specialize (IH st1 H1). destruct (run st1 evs) as [st2 t2]. exact IH.
Qed.

Lemma reachable_consistent st : reachable st -> consistent st.
Proof.
  intros (st0 & t0 & evs & Hmount & <-).
  apply run_consistent. exact (mount_consistent st0 t0 Hmount).
Qed.

(** *** Settled mutations *)

Lemma createMutation_onSuccess_spec st :
  createMutation_onSuccess props st =
  (tt, set_isSubmitted false (set_form (defaultValue st) (defaultValue st) ∅ st),
   [ToastSuccess (lit "State created successfully!");
    InvalidateQueries [VStr (lit "states")];
    FormReset None;
    completion]).
Proof.
  unfold_handlers. unfold StateForm.completion.
  destruct (onSuccess props); reflexivity.
Qed.

Lemma step_CreateResolved st :
  createPending st = true ->
  step st CreateResolved =
  (set_createPending false
     (set_isSubmitted false (set_form (defaultValue st) (defaultValue st) ∅ st)),
   [ToastSuccess (lit "State created successfully!");
    InvalidateQueries [VStr (lit "states")];
    FormReset None;
    completion]).
Proof.
  intros Hp. unfold StateForm.step, exec, StateForm.dispatch, StateForm.deliver.
  rewrite Hp. unfold mbind, M_bind. rewrite createMutation_onSuccess_spec.
  reflexivity.
Qed.

(** The handler of a successful update: between the invalidation of the
    state's own query and the completion comes the fetch that the
    invalidation starts, when it starts one.  The form is left as it is. *)
Lemma updateMutation_onSuccess_spec st :
  exists st' gets,
    updateMutation_onSuccess props st =
    (tt, st',
     [ToastSuccess (lit "State updated successfully!");
      InvalidateQueries [VStr (lit "states")];
      InvalidateQueries [VStr (lit "state"); stateId_val props]]
     ++ gets ++ [completion])
    /\ (gets = [] \/
        (query_enabled props = true /\
         gets = [Get (lit "/api/states/" ++ interpolate (stateId props))]))
    /\ value st' = value st /\ defaultValue st' = defaultValue st
    /\ errors st' = errors st /\ isSubmitted st' = isSubmitted st
    /\ createPending st' = createPending st /\ updatePending st' = updatePending st
    /\ earlierCreates st' = earlierCreates st /\ earlierUpdates st' = earlierUpdates st
    /\ (isFetchingState st' = true ->
        isFetchingState st = true
        \/ (query_enabled props = true /\ stateData st = VUndefined
            /\ isRefetching st = false /\ isRefetching st' = false))
    /\ stateData st' = stateData st.
Proof.
  destruct (invalidate_own st) as (st' & gets & Heq & Hrest).
  exists st', gets. split; [|exact Hrest].
  unfold updateMutation_onSuccess, mbind, M_bind, toast_success, emit.
  rewrite invalidate_list, Heq.
  unfold complete, StateForm.completion, navigate, emit.
  destruct (onSuccess props); simpl; rewrite <- ?app_assoc; reflexivity.
Qed.

Lemma step_UpdateResolved st :
  updatePending st = true ->
  exists st' gets,
    step st UpdateResolved =
    (set_updatePending false st',
     [ToastSuccess (lit "State updated successfully!");
      InvalidateQueries [VStr (lit "states")];
      InvalidateQueries [VStr (lit "state"); stateId_val props]]
     ++ gets ++ [completion])
    /\ (gets = [] \/
        (query_enabled props = true /\
         gets = [Get (lit "/api/states/" ++ interpolate (stateId props))]))
    /\ value st' = value st /\ defaultValue st' = defaultValue st
    /\ errors st' = errors st /\ isSubmitted st' = isSubmitted st
    /\ createPending st' = createPending st /\ updatePending st' = updatePending st
    /\ earlierCreates st' = earlierCreates st /\ earlierUpdates st' = earlierUpdates st
    /\ (isFetchingState st' = true ->
        isFetchingState st = true
        \/ (query_enabled props = true /\ stateData st = VUndefined
            /\ isRefetching st = false /\ isRefetching st' = false))
    /\ stateData st' = stateData st.
Proof.
  intros Hp.
  destruct (updateMutation_onSuccess_spec st) as (st' & gets & Heq & Hrest).
  exists st', gets. split; [|exact Hrest].
  unfold StateForm.step, exec, StateForm.dispatch, StateForm.deliver.
  rewrite Hp. unfold mbind, M_bind. rewrite Heq. unfold modify.
  rewrite app_nil_r. reflexivity.
Qed.

Lemma completion_is_completion : is_completion completion = true.
Proof. unfold StateForm.completion. destruct (onSuccess props); reflexivity. Qed.

(** C3.  When a creation or an update succeeds, the handler raises exactly
    one success notification, invalidates the cached list under the key
    [states] (the update also the cached item under [state] and the id, the
    creation nothing else), and performs exactly one completion action: the
    caller's callback when one was supplied, otherwise the navigation to
    [/states]. *)
Theorem success_notifies_invalidates_completes (st : State) :
  (createPending st = true ->
     let t := (step st CreateResolved).2 in
     length (List.filter is_success_toast t) = 1%nat
     /\ (forall k, InvalidateQueries k ∈ t <-> k = [VStr (lit "states")])
     /\ List.filter is_completion t = [completion])
  /\ (updatePending st = true ->
     let t := (step st UpdateResolved).2 in
     length (List.filter is_success_toast t) = 1%nat
     /\ (forall k, InvalidateQueries k ∈ t <->
           k = [VStr (lit "states")]
           \/ k = [VStr (lit "state"); stateId_val props])
     /\ List.filter is_completion t = [completion])
  /\ completion = match onSuccess props with
                  | Some cb => CallOnSuccess cb
                  | None => Navigate (lit "/states")
                  end.
Proof.
  pose proof completion_is_completion as Hc.
  assert (Hnt : is_success_toast completion = false)
    by (unfold StateForm.completion; destruct (onSuccess props); reflexivity).
  assert (Hni : forall k, InvalidateQueries k <> completion)
    by (unfold StateForm.completion; destruct (onSuccess props); discriminate).
  split; [|split; [|reflexivity]].
  - intros Hp t. subst t. rewrite (step_CreateResolved st Hp). simpl snd.
    split; [|split].
    + simpl. rewrite Hnt. reflexivity.
    + intros k. rewrite !elem_of_cons, elem_of_nil. split.
      * intros [H|[H|[H|[H|[]]]]]; try discriminate H.
        -- now injection H.
        -- now apply Hni in H.
      * intros ->. right. now left.
    + simpl. rewrite Hc. reflexivity.
  - intros Hp t. subst t.
    destruct (step_UpdateResolved st Hp) as (st' & gets & -> & Hgets & _).
    simpl snd.
    assert (Hg : List.filter is_success_toast gets = []
                 /\ List.filter is_completion gets = []
                 /\ forall k, InvalidateQueries k ∉ gets).
    { destruct Hgets as [-> | [_ ->]]; repeat split;
        intros k; rewrite ?elem_of_cons, elem_of_nil; intuition discriminate. }
    destruct Hg as (Hg1 & Hg2 & Hg3).
    split; [|split].
    + simpl. rewrite List.filter_app, Hg1. simpl. rewrite Hnt. reflexivity.
    + intros k. rewrite !elem_of_cons, elem_of_app, elem_of_cons, elem_of_nil.
      split.
      * intros [H|[H|[H|[H|[H|[]]]]]]; try discriminate H.
        -- left. now injection H.
        -- right. now injection H.
        -- now apply Hg3 in H.
        -- now apply Hni in H.
      * intros [->| ->]; [right; now left|right; right; now left].
    + simpl. rewrite List.filter_app, Hg2. simpl. rewrite Hc. reflexivity.
Qed.

(** C9.  After a successful creation the field is back at its default,
    the empty string, and the reset comes in the trace before the one
    completion action; after a successful update the field keeps its value
    and the form is not reset. *)
Theorem create_resets_field_update_keeps_it (st : State) :
  (reachable st -> createPending st = true ->
     let r := step st CreateResolved in
     value r.1 = VStr []
     /\ exists before, r.2 = before ++ [FormReset None; completion]
                       /\ List.filter is_completion before = [])
  /\ (updatePending st = true ->
     let r := step st UpdateResolved in
     value r.1 = value st /\ List.filter is_form_reset r.2 = []).
Proof.
  split.
  - intros Hreach Hp r. subst r. rewrite (step_CreateResolved st Hp).
    apply reachable_consistent in Hreach.
    split.
    + simpl. apply (create_default _ _ Hreach).
      exact (create_pending_mode _ _ Hreach Hp).
    + eexists [_; _]. split; reflexivity.
  - intros Hp r. subst r.
    destruct (step_UpdateResolved st Hp) as (st' & gets & -> & Hgets & Hv & _).
    split; [exact Hv|].
    simpl snd. simpl. rewrite List.filter_app.
    assert (Hg : List.filter is_form_reset gets = [])
      by (destruct Hgets as [-> | [_ ->]]; reflexivity).
    rewrite Hg. unfold StateForm.completion. simpl.
    destruct (onSuccess props); reflexivity.
Qed.


(** *** The guard on the submit trigger *)

(** C6, as the code has it.  Once the component has rendered with a
    creation or an update in flight, the view offers no submit trigger (the
    button is disabled) and a click on it changes nothing and calls nothing.
    That is the whole guard: on a screen whose button is still enabled the
    click runs [handleSubmit], whatever is in flight. *)
Theorem submit_ignored_while_submitting (st : State) :
  (createPending st || updatePending st) = true ->
  step st ClickSubmit = (st, [])
  /\ (SubmitButton ∉ controls (render st))
  /\ (forall f, render st = FormShown f -> submit_disabled f = true)
  /\ (forall f, submit_disabled f = false ->
        exec (deliver (FormShown f) ClickSubmit) st = exec handleSubmit st).
Proof.
  intros Hp.
  assert (Hl : isFormLoading st = true)
    by (unfold isFormLoading; rewrite Hp; reflexivity).
  assert (Hview : render st = LoadingView \/ render st = FetchFailedView
                  \/ exists f, render st = FormShown f /\ submit_disabled f = true).
  { unfold StateForm.render.
    destruct (mode_eqb (mode props) edit && isFetchingState st); [now left|].
    destruct (mode_eqb (mode props) edit && is_set (fetchError st));
      [right; now left|].
    right; right. eexists. split; [reflexivity|exact Hl]. }
  split; [|split; [|split]].
  - unfold StateForm.step, exec, StateForm.dispatch.
    destruct Hview as [-> | [-> | (f & -> & Hf)]]; simpl; rewrite ?Hf; reflexivity.
  - destruct Hview as [-> | [-> | (f & -> & Hf)]]; simpl.
    + apply not_elem_of_nil.
    + rewrite elem_of_cons, elem_of_nil. intuition discriminate.
    + rewrite Hf, app_nil_r, elem_of_app.
      destruct (input_disabled f), (cancel_disabled f);
        rewrite ?elem_of_cons, ?elem_of_nil; intuition discriminate.
  - intros f Hf. destruct Hview as [H | [H | (f' & H & Hd)]];
      rewrite H in Hf; try discriminate Hf.
    injection Hf as <-. exact Hd.
  - intros f Hf. unfold StateForm.deliver, exec. rewrite Hf. reflexivity.
Qed.

(** *** The fetch in Edit mode *)

Local Abbreviation fetch_failed := (fetch_failed props).

Lemma render_fetch_failed st : fetch_failed st -> render st = FetchFailedView.
Proof.
  intros [Hm [Hs _] He _ _]. unfold StateForm.render.
  rewrite Hm, Hs, He. reflexivity.
Qed.

(** In the fetch-failed state an event changes nothing, and only the Back
    button has an effect: the navigation to the list. *)
Lemma step_fetch_failed st ev :
  fetch_failed st ->
  step st ev = (st, match ev with
                    | ClickBack => [Navigate (lit "/states")]
                    | _ => []
                    end).
Proof.
  intros Hf. pose proof (render_fetch_failed st Hf) as Hr.
  destruct Hf as [Hm [Hs Hrf] He [Hc Hec] [Hu Heu]].
  unfold StateForm.step, exec, StateForm.dispatch, StateForm.deliver.
  destruct ev; rewrite ?Hr, ?Hs, ?Hrf, ?Hc, ?Hu, ?Hec, ?Heu; reflexivity.
Qed.

Lemma run_fetch_failed evs st :
  fetch_failed st ->
  (run st evs).1 = st
  /\ Forall (fun e => e = Navigate (lit "/states")) (run st evs).2.
Proof.
  intros Hf. induction evs as [|ev evs [IH1 IH2]]; [split; [reflexivity|constructor]|].
  simpl. rewrite (step_fetch_failed st ev Hf).
  destruct (run st evs) as [st2 t2]. simpl in *. split; [exact IH1|].
  apply Forall_app. split; [|exact IH2].
  destruct ev; repeat constructor.
Qed.







(** *** Construction *)

(** C5, as the code has it.  In Edit mode without a state id nothing is
    thrown when the component is constructed: the query is disabled, so its
    function, which alone raises "State ID is required", is not run; no
    request is sent and no error is recorded. *)
Theorem mount_edit_without_id_does_not_throw :
  mode props = edit -> has_stateId props = false ->
  mount props = Normal (initial, [])
  /\ fetchError initial = None /\ isFetchingState initial = false.
Proof.
  intros Hm Hid. unfold mount, query_enabled. rewrite Hm, Hid.
  repeat split.
Qed.

(** The query function runs only with an id: its error is never raised. *)
Lemma queryFn_guarded :
  query_enabled props = true ->
  queryFn props = Normal (Get (lit "/api/states/" ++ interpolate (stateId props))).
Proof.
  unfold query_enabled, queryFn. intros H.
  apply andb_true_iff in H as [_ ->]. reflexivity.
Qed.

(** *** Failed submissions *)

Local Abbreviation extractErrorMessage := (extractErrorMessage unicodeUpper).
Local Abbreviation prettifyFieldName := (prettifyFieldName unicodeUpper).
Local Abbreviation mutation_onError := (mutation_onError unicodeUpper Validate).

Lemma str_eqb_refl k : str_eqb k k = true.
Proof. now apply str_eqb_eq. Qed.

(** Without a usable first field message the result is the generic
    message. *)
Lemma extractErrorMessage_generic error :
  truthy (first_field_message error) = false ->
  extractErrorMessage error = Normal (prop error (lit "message")).
Proof.
  unfold first_field_message, StateForm.extractErrorMessage.
  destruct (prop error (lit "errors")) as [| | | | |[|[k entry] rest]];
    cbn -[str_eqb lit]; try reflexivity.
  1-3: intros _; repeat match goal with
                        | |- context [?b && false] => rewrite (andb_false_r b)
                        end; reflexivity.
  rewrite str_eqb_refl.
  destruct (negb (str_eqb k [])); [|reflexivity].
  intros ->. reflexivity.
Qed.

(** With one, the result is that message after [replace]. *)
Lemma extractErrorMessage_field error message :
  first_field_message error = VStr message -> message <> [] ->
  exists k, head (keys (prop error (lit "errors"))) = Some k /\
    extractErrorMessage error =
    Normal (VStr (replace message k (prettifyFieldName k))).
Proof.
  unfold first_field_message, StateForm.extractErrorMessage.
  destruct (prop error (lit "errors")) as [| | | | |[|[k entry] rest]];
    cbn -[str_eqb lit]; try discriminate.
  rewrite str_eqb_refl.
  destruct (negb (str_eqb k [])); [|discriminate].
  intros -> Hne. exists k. split; [reflexivity|].
  simpl. destruct message; [contradiction|reflexivity].
Qed.

Lemma exec_mutation_onError st label fallback error extracted :
  extractErrorMessage error = Normal extracted ->
  (exec (mutation_onError label fallback error) st).2 =
  [ConsoleError (lit label) error;
   ToastError (or_else extracted (VStr (lit fallback)))].
Proof. intros H. unfold_handlers. rewrite H. reflexivity. Qed.

(** What a failed submission displays: the first field message with the
    label in the place of the first occurrence of the key, provided the
    label holds no dollar sign (and the fallback of the handler if nothing
    is left of the message); without a first field message, the generic
    message when it is truthy, else the fallback of the handler. *)
Lemma failed_submission_displays st label fallback error :
  let t := (exec (mutation_onError label fallback error) st).2 in
  (forall message, first_field_message error = VStr message -> message <> [] ->
     exists k, head (keys (prop error (lit "errors"))) = Some k /\
       (ch "$" ∉ prettifyFieldName k ->
        error_toasts t =
        [or_else (VStr (Spec.substitute_first message k (prettifyFieldName k)))
                 (VStr (lit fallback))]))
  /\ (truthy (first_field_message error) = false ->
      error_toasts t = [or_else (prop error (lit "message")) (VStr (lit fallback))]).
Proof.
  intros t. subst t. split.
  - intros message Hm Hne.
    destruct (extractErrorMessage_field error message Hm Hne) as (k & Hk & He).
    exists k. split; [exact Hk|]. intros Hno.
    rewrite (exec_mutation_onError st label fallback error _ He).
    rewrite (LabelFacts.replace_plain _ _ _ Hno). reflexivity.
  - intros Hf.
    rewrite (exec_mutation_onError st label fallback error _
               (extractErrorMessage_generic error Hf)).
    reflexivity.
Qed.

(** C8, at a key the code mishandles.  The label of the first field key
    is the template of [String.prototype.replace], in which a dollar sign
    followed by [&] stands for the matched text: for the key [a$&] with the
    message [a$& bad] the notification reads [Aa$& bad], while the message
    with the key replaced by its label [A$&] is [A$& bad]. *)
Theorem failed_submission_label_with_dollar (st : State) :
  error_toasts
    (exec (createMutation_onError unicodeUpper Validate Examples.dollarKeyError) st).2
  = [VStr (lit "Aa$& bad")]
  /\ first_field_message Examples.dollarKeyError = VStr (lit "a$& bad")
  /\ prettifyFieldName (lit "a$&") = lit "A$&"
  /\ Spec.substitute_first (lit "a$& bad") (lit "a$&") (lit "A$&") = lit "A$& bad".
Proof.
  split; [|repeat split; vm_compute; reflexivity].
  unfold createMutation_onError.
  rewrite (exec_mutation_onError st _ _ _ (VStr (lit "Aa$& bad")))
    by (vm_compute; reflexivity).
  reflexivity.
Qed.

End Component.

(** C5, as stated, fails: the construction in Edit mode without an id throws
    nothing. *)
Lemma mount_edit_without_id_throws_nothing :
  ~ (exists e, mount {| mode := edit; stateId := None; onSuccess := None |} = Throw e).
Proof. intros [e H]. discriminate H. Qed.

(** *** The properties on the concrete components *)

Import Examples.

(** C6, as stated, fails: a second submit that arrives before the component
    has rendered again meets the button of the last render, still enabled,
    and the creation in flight does not stop [handleSubmit]: the request goes
    out a second time.  With the render in between there is one request. *)
Lemma second_submit_before_rerender :
  createPending
    (run_staged asciiOnly noValidate noMessage createProps typed
                (render createProps typed) [Arrives ClickSubmit]).1.1 = true
  /\ (run_staged asciiOnly noValidate noMessage createProps typed
                 (render createProps typed)
                 [Arrives ClickSubmit; Arrives ClickSubmit]).2 =
     [Post (lit "/api/states") (VObj [(lit "stateName", VStr (lit "Goa"))]);
      Post (lit "/api/states") (VObj [(lit "stateName", VStr (lit "Goa"))])]
  /\ (run_staged asciiOnly noValidate noMessage createProps typed
                 (render createProps typed)
                 [Arrives ClickSubmit; Rerender; Arrives ClickSubmit]).2 =
     [Post (lit "/api/states") (VObj [(lit "stateName", VStr (lit "Goa"))])].
Proof. repeat split; vm_compute; reflexivity. Qed.



(** A click on an enabled submit button runs [handleSubmit]. *)
Lemma click_submit_runs_handleSubmit up V msg props st :
  SubmitButton ∈ controls (render props st) ->
  step up V msg props st ClickSubmit = exec (handleSubmit msg props) st.
Proof.
  unfold step, dispatch, deliver. unfold exec at 1.
  destruct (render props st) as [| |f]; simpl.
  - intros H. now apply elem_of_nil in H.
  - rewrite elem_of_cons, elem_of_nil. intuition discriminate.
  - destruct (submit_disabled f); [|reflexivity].
    rewrite app_nil_r, elem_of_app.
    destruct (input_disabled f), (cancel_disabled f);
      rewrite ?elem_of_cons, ?elem_of_nil; intuition discriminate.
Qed.

(** A creation from the first render to the navigation back to the list. *)
Example create_flow :
  (run asciiOnly noValidate noMessage createProps initial
       [TypeText (lit "Goa"); ClickSubmit; ClickSubmit; CreateResolved]).2 =
  [Post (lit "/api/states") (VObj [(lit "stateName", VStr (lit "Goa"))]);
   ToastSuccess (lit "State created successfully!");
   InvalidateQueries [VStr (lit "states")];
   FormReset None;
   Navigate (lit "/states")].
Proof. vm_compute. reflexivity. Qed.

(** An update from the fetch to the caller's callback: the invalidation of
    the state's own query fetches it again. *)
Example update_flow :
  (run asciiOnly noValidate noMessage editProps fetching
       [FetchResolved (VObj [(lit "id", VNum 7); (lit "stateName", VStr (lit "Texas"))]);
        TypeText (lit "Goa"); ClickSubmit; UpdateResolved]).2 =
  [FormReset (Some (VObj [(lit "stateName", VStr (lit "Texas"))]));
   Put (lit "/api/states/7") (VObj [(lit "stateName", VStr (lit "Goa"))]);
   ToastSuccess (lit "State updated successfully!");
   InvalidateQueries [VStr (lit "states")];
   InvalidateQueries [VStr (lit "state"); VStr (lit "7")];
   Get (lit "/api/states/7");
   CallOnSuccess (callback 1)].
Proof. vm_compute. reflexivity. Qed.

(** The fetch-failed view that a failed fetch behind the form brings need
    not stay: when the update in flight succeeds the state is fetched again,
    and a success of that fetch brings the form back. *)
Example failed_refetch_is_not_terminal :
  render editProps updatingAfterFailedRefetch = FetchFailedView
  /\ controls (render editProps
       (run asciiOnly noValidate noMessage editProps updatingAfterFailedRefetch
          [UpdateResolved;
           FetchResolved (VObj [(lit "id", VNum 7);
                                (lit "stateName", VStr (lit "Texas"))])]).1) =
     [NameInput; CancelButton; SubmitButton].
Proof. split; vm_compute; reflexivity. Qed.

(** A fetch behind the form that brings the data already held resets
    nothing: what the user typed meanwhile stays. *)
Example refetch_with_same_data_keeps_edits :
  value (run asciiOnly noValidate noMessage editProps fetching
       [FetchResolved (VObj [(lit "id", VNum 7); (lit "stateName", VStr (lit "Texas"))]);
        ClickSubmit; UpdateResolved; TypeText (lit "Goa");
        FetchResolved (VObj [(lit "stateName", VStr (lit "Texas")); (lit "id", VNum 7)])]).1
  = VStr (lit "Goa").
Proof. vm_compute. reflexivity. Qed.

(** An update rejected by the server with a field-level error. *)
Example rejected_update_flow :
  (run asciiOnly noValidate noMessage editProps updating
       [UpdateRejected
          (VObj [(lit "message", VStr (lit "Validation failed"));
                 (lit "errors",
                  VObj [(lit "states_stateName",
                         VObj [(lit "message",
                                VStr (lit "states_stateName already exists"))])])])]).2
  = [ConsoleError (lit "Update state error:")
       (VObj [(lit "message", VStr (lit "Validation failed"));
              (lit "errors",
               VObj [(lit "states_stateName",
                      VObj [(lit "message",
                             VStr (lit "states_stateName already exists"))])])]);
     ToastError (VStr (lit "State Name already exists"))].
Proof. vm_compute. reflexivity. Qed.

(** An empty name stops at the validation; the message goes once the user
    types a name. *)
Example empty_name_is_refused :
  step asciiOnly noValidate noMessage createProps initial ClickSubmit =
  (set_isSubmitted true
     (set_form (VStr []) (VStr []) {[ lit "stateName" := lit "State name is required" ]}
               initial), [])
  /\ errors (run asciiOnly noValidate noMessage createProps initial
                 [ClickSubmit; TypeText (lit "Goa")]).1 !! lit "stateName" = None.
Proof. split; [reflexivity|vm_compute; reflexivity]. Qed.

Lemma submit_calls_network_iff_valid_witness :
  value typed = VStr (lit "Goa")
  /\ (exec (handleSubmit noMessage createProps) typed).2 =
     [Post (lit "/api/states") (VObj [(lit "stateName", VStr (lit "Goa"))])].
Proof.
  split; [reflexivity|].
  pose proof (submit_calls_network_iff_valid noMessage createProps typed
                (lit "Goa") eq_refl) as H.
  cbv zeta in H. destruct H as [H _].
  assert (Hlen : 1 <= len (lit "Goa") <= 255) by (vm_compute; split; discriminate).
  destruct (H Hlen) as [Htrace _]. exact Htrace.
Defined.

Lemma success_notifies_invalidates_completes_witness :
  createPending creating = true
  /\ List.filter is_completion
       (step asciiOnly noValidate noMessage createProps creating CreateResolved).2 =
     [Navigate (lit "/states")].
Proof.
  split; [reflexivity|].
  destruct (success_notifies_invalidates_completes asciiOnly noValidate noMessage
              createProps creating) as [H _].
  destruct (H eq_refl) as (_ & _ & Hc). exact Hc.
Defined.

Lemma create_resets_field_update_keeps_it_witness :
  value creating = VStr (lit "Goa")
  /\ value (step asciiOnly noValidate noMessage createProps creating CreateResolved).1 =
     VStr [].
Proof.
  split; [reflexivity|].
  destruct (create_resets_field_update_keeps_it asciiOnly noValidate noMessage
              createProps creating) as [H _].
  assert (Hreach : reachable asciiOnly noValidate noMessage createProps creating).
  { exists initial, [], [TypeText (lit "Goa"); ClickSubmit]. split; reflexivity. }
  destruct (H Hreach eq_refl) as [Hv _]. exact Hv.
Defined.

Lemma submit_ignored_while_submitting_witness :
  (createPending creating || updatePending creating) = true
  /\ step asciiOnly noValidate noMessage createProps creating ClickSubmit =
     (creating, []).
Proof.
  split; [reflexivity|].
  destruct (submit_ignored_while_submitting asciiOnly noValidate noMessage
              createProps creating eq_refl) as [H _].
  exact H.
Defined.



Lemma mount_edit_without_id_does_not_throw_witness :
  mode editPropsNoId = edit /\ has_stateId editPropsNoId = false
  /\ mount editPropsNoId = Normal (initial, []).
Proof.
  split; [reflexivity|]. split; [reflexivity|].
  destruct (mount_edit_without_id_does_not_throw editPropsNoId eq_refl eq_refl)
    as [H _].
  exact H.
Defined.

End FormFacts.
(** ** More on the error-label mapping *)

Module LabelExtras.

Import Js.

Lemma split_without_separator sep s : sep ∉ s -> split sep s = [s].
Proof.
  induction s as [|c s IH]; intros Hno; [reflexivity|].
  apply not_elem_of_cons in Hno as [Hc Hs]. simpl.
  destruct (N.eqb_spec c sep) as [->|_]; [contradiction|].
  now rewrite IH.
Qed.

Lemma split_at_separator sep a s :
  sep ∉ a -> split sep (a ++ sep :: s) = a :: split sep s.
Proof.
  induction a as [|c a IH]; intros Hno; simpl.
  - now rewrite N.eqb_refl.
  - apply not_elem_of_cons in Hno as [Hc Ha].
    destruct (N.eqb_spec c sep) as [->|_]; [contradiction|].
    now rewrite IH.
Qed.

(** The table prefix and whatever follows a second underscore play no part:
    the label of [prefix_field] and of [prefix_field_more] is the label of
    [field]. *)
Theorem prettifyFieldName_second_segment up (prefix field more : str) :
  ch "_" ∉ prefix -> ch "_" ∉ field ->
  more = [] \/ (exists rest, more = ch "_" :: rest) ->
  prettifyFieldName up (prefix ++ ch "_" :: field ++ more) =
  prettifyFieldName up field.
Proof.
  intros Hp Hf Hmore. unfold prettifyFieldName.
  rewrite (split_at_separator _ _ _ Hp), (split_without_separator _ _ Hf).
  destruct Hmore as [->|[rest ->]].
  - rewrite app_nil_r, (split_without_separator _ _ Hf). reflexivity.
  - rewrite (split_at_separator _ _ _ Hf). reflexivity.
Qed.

Ltac not_in_literal :=
  let H := fresh in
  cbv [lit ch list_ascii_of_string map N_of_ascii N_of_digits]; simpl; intros H;
  repeat (apply elem_of_cons in H as [H|H]; [discriminate H|]);
  now apply elem_of_nil in H.

Lemma prettifyFieldName_second_segment_witness :
  prettifyFieldName (fun s => s) (lit "states_stateName_key") =
  prettifyFieldName (fun s => s) (lit "stateName").
Proof.
  apply (prettifyFieldName_second_segment (fun s => s)
           (lit "states") (lit "stateName") (lit "_key")).
  - not_in_literal.
  - not_in_literal.
  - right. eexists. reflexivity.
Defined.

(** *** Trimming *)

Lemma trimStart_head s : Notions.starts_white (trimStart s) = false.
Proof.
  induction s as [|c s IH]; [reflexivity|]. simpl.
  destruct (is_white c) eqn:E; [exact IH|]. simpl. exact E.
Qed.

Lemma trimStart_fixed s : Notions.starts_white s = false -> trimStart s = s.
Proof. destruct s as [|c s]; [reflexivity|]. simpl. now intros ->. Qed.

Lemma trimStart_suffix s : exists dropped, s = dropped ++ trimStart s.
Proof.
  induction s as [|c s [d IH]]; [now exists []|]. simpl.
  destruct (is_white c).
  - exists (c :: d). simpl. now f_equal.
  - now exists [].
Qed.

(** Cutting white space from the front keeps a last unit that is not white. *)
Lemma trimStart_keeps_last s :
  Notions.starts_white (rev s) = false -> Notions.starts_white (rev (trimStart s)) = false.
Proof.
  induction s as [|c s IH]; [reflexivity|]. simpl.
  destruct (is_white c) eqn:E; [|now simpl].
  intros H. apply IH.
  destruct (rev s) as [|x r] eqn:Er; [reflexivity|]. exact H.
Qed.

(** What is trimmed neither starts nor ends with white space. *)
Lemma trim_ends s :
  Notions.starts_white (trim s) = false /\ Notions.starts_white (rev (trim s)) = false.
Proof.
  unfold trim, trimEnd. rewrite rev_involutive. split.
  - apply trimStart_keeps_last. rewrite rev_involutive. apply trimStart_head.
  - apply trimStart_head.
Qed.

Lemma trim_fixed s :
  Notions.starts_white s = false -> Notions.starts_white (rev s) = false -> trim s = s.
Proof.
  intros Hh Hl. unfold trim, trimEnd.
  rewrite (trimStart_fixed s Hh), (trimStart_fixed _ Hl). apply rev_involutive.
Qed.

(** *** Plain keys *)

Lemma replace_upper_spaced_fixed s :
  Forall (fun c => is_upper c = false) s -> replace_upper_spaced s = s.
Proof.
  unfold replace_upper_spaced.
  induction 1 as [|c s Hc _ IH]; [reflexivity|].
  cbn [flat_map]. rewrite Hc. cbn [app]. f_equal. exact IH.
Qed.

(** A key with no underscore, no capital letter, no white space at its ends
    and no [key] or [id] at its end comes back whole, its first letter in
    upper case. *)
Theorem prettifyFieldName_plain_key up (key : str) :
  ch "_" ∉ key ->
  Forall (fun c => is_upper c = false) key ->
  Notions.starts_white key = false -> Notions.starts_white (rev key) = false ->
  Spec.ends_with (lit "key") key = false -> Spec.ends_with (lit "id") key = false ->
  prettifyFieldName up key = toUpperCase up (charAt 0 key) ++ slice 1 key.
Proof.
  intros Hsep Hup Hhead Hlast Hkey Hid. unfold prettifyFieldName.
  rewrite (split_without_separator _ _ Hsep).
  change ((1 <? length [key])%nat) with false. cbv iota.
  assert (Hstrip : replace_key_id_suffix up key = key).
  { rewrite LabelFacts.replace_key_id_suffix_spec. unfold Spec.strip_suffix.
    now rewrite Hkey, Hid. }
  rewrite Hstrip, (replace_upper_spaced_fixed _ Hup), (trim_fixed _ Hhead Hlast).
  reflexivity.
Qed.

Lemma prettifyFieldName_plain_key_witness :
  prettifyFieldName (fun s => s) (lit "email") = lit "Email".
Proof.
  apply (prettifyFieldName_plain_key (fun s => s) (lit "email")).
  - not_in_literal.
  - repeat constructor.
  - reflexivity.
  - reflexivity.
  - reflexivity.
  - reflexivity.
Defined.

(** *** The ends of a label *)

Lemma split_units sep s seg x : In seg (split sep s) -> In x seg -> In x s.
Proof.
  revert seg. induction s as [|c s IH]; intros seg Hseg Hx; simpl in Hseg.
  - destruct Hseg as [<-|[]]. destruct Hx.
  - destruct (c =? sep).
    + destruct Hseg as [<-|Hseg]; [destruct Hx|]. right. eapply IH; eauto.
    + destruct (split sep s) as [|seg0 segs] eqn:E.
      * destruct Hseg as [<-|[]]. destruct Hx as [<-|[]]. now left.
      * destruct Hseg as [<-|Hseg].
        -- destruct Hx as [<-|Hx]; [now left|]. right. apply (IH seg0); [now left|exact Hx].
        -- right. apply (IH seg); [now right|exact Hx].
Qed.

Lemma replace_key_id_suffix_units up s x :
  In x (replace_key_id_suffix up s) -> In x s.
Proof.
  induction s as [|c s IH]; cbn [replace_key_id_suffix].
  - match goal with |- context [if ?b then _ else _] => destruct b end; intros [].
  - match goal with |- context [if ?b then _ else _] => destruct b end;
      [intros []|].
    intros [<-|H]; [now left|right; auto].
Qed.

Lemma replace_upper_spaced_units s x :
  In x (replace_upper_spaced s) -> x = ch " " \/ In x s.
Proof.
  unfold replace_upper_spaced. intros H. apply in_flat_map in H as (c & Hc & Hx).
  destruct (is_upper c).
  - destruct Hx as [<-|[<-|[]]]; [now left|now right].
  - destruct Hx as [<-|[]]. now right.
Qed.

Lemma trimStart_units s x : In x (trimStart s) -> In x s.
Proof.
  destruct (trimStart_suffix s) as [d Hd]. intros H. rewrite Hd.
  apply in_or_app. now right.
Qed.

Lemma trim_units s x : In x (trim s) -> In x s.
Proof.
  unfold trim, trimEnd. intros H. apply in_rev in H.
  apply trimStart_units in H. apply in_rev in H. now apply trimStart_units in H.
Qed.

Lemma is_white_ascii_upper c : is_white (ascii_upper c) = is_white c.
Proof.
  unfold ascii_upper.
  destruct (N.leb_spec 97 c); simpl; [|reflexivity].
  destruct (N.leb_spec c 122); simpl; [|reflexivity].
  unfold is_white, white_units. simpl.
  repeat match goal with
         | |- context [?a =? ?b] => destruct (N.eqb_spec a b); [exfalso; lia|]
         end.
  reflexivity.
Qed.

(** The label of a key of ASCII characters neither starts nor ends with
    white space (it may be empty). *)
Theorem prettifyFieldName_has_trimmed_ends up (key : str) :
  Forall (fun c => c < 128) key ->
  Notions.starts_white (prettifyFieldName up key) = false
  /\ Notions.starts_white (rev (prettifyFieldName up key)) = false.
Proof.
  intros Hascii. unfold prettifyFieldName.
  set (field := if (1 <? length (split (ch "_") key))%nat
                then nth 1 (split (ch "_") key) [] else key).
  set (t := trim (replace_upper_spaced (replace_key_id_suffix up field))).
  assert (Hfield : forall x, In x field -> In x key).
  { subst field. intros x. destruct (Nat.ltb_spec 1 (length (split (ch "_") key))).
    - intros Hx. eapply split_units; [|exact Hx]. apply nth_In. lia.
    - auto. }
  assert (Ht : forall x, In x t -> x < 128).
  { intros x Hx. subst t. apply trim_units in Hx.
    apply replace_upper_spaced_units in Hx as [->|Hx]; [reflexivity|].
    apply replace_key_id_suffix_units, Hfield in Hx.
    rewrite Forall_forall in Hascii. apply Hascii. now apply list_elem_of_In. }
  destruct (trim_ends (replace_upper_spaced (replace_key_id_suffix up field)))
    as [Hhead Hlast].
  fold t in Hhead, Hlast. clearbody t. destruct t as [|c r]; [split; reflexivity|].
  change (charAt 0 (c :: r)) with [c]. change (slice 1 (c :: r)) with r.
  rewrite (LabelFacts.toUpperCase_ascii_unit up c) by (apply Ht; now left).
  simpl app. simpl in Hhead. split.
  - simpl. now rewrite is_white_ascii_upper.
  - simpl in *. destruct (rev r) as [|y ys]; simpl in *.
    + now rewrite is_white_ascii_upper.
    + exact Hlast.
Qed.

Lemma prettifyFieldName_has_trimmed_ends_witness :
  Notions.starts_white (prettifyFieldName (fun s => s) (lit " states_ StateName ")) = false.
Proof.
  apply (prettifyFieldName_has_trimmed_ends (fun s => s) (lit " states_ StateName ")).
  repeat constructor.
Defined.

End LabelExtras.

(** ** More on failed submissions *)

Module ErrorExtras.

Import Js Json StateForm Notions.

Section Reasons.

Variable unicodeUpper : str -> str.
Variable Validate : JsVal -> gmap str str -> gmap str str.

Local Abbreviation extractErrorMessage := (extractErrorMessage unicodeUpper).
Local Abbreviation createMutation_onError := (createMutation_onError unicodeUpper Validate).
Local Abbreviation updateMutation_onError := (updateMutation_onError unicodeUpper Validate).

(** [extractErrorMessage] throws in one case only: the first field message
    is truthy and not a string, so that it has no [replace]; the exception is
    then a [TypeError]. *)
Theorem extractErrorMessage_throws_iff (error : JsVal) :
  (extractErrorMessage error = Throw TypeError <->
   truthy (first_field_message error) = true
   /\ forall m, first_field_message error <> VStr m)
  /\ forall e, extractErrorMessage error = Throw e -> e = TypeError.
Proof.
  unfold first_field_message, StateForm.extractErrorMessage.
  destruct (prop error (lit "errors")) as [| | | | |[|[k entry] rest]];
    cbn -[str_eqb lit].
  1-6: repeat match goal with
              | |- context [?b && false] => rewrite (andb_false_r b)
              end;
       (split; [split; [discriminate|intros [H _]; discriminate H]|discriminate]).
  rewrite FormFacts.str_eqb_refl.
  destruct (negb (str_eqb k []));
    [|split; [split; [discriminate|intros [H _]; discriminate H]|discriminate]].
  destruct (prop entry (lit "message")) as [| |b|n|m|ps] eqn:Em; simpl.
  - split; [split; [discriminate|intros [H _]; discriminate H]|discriminate].
  - split; [split; [discriminate|intros [H _]; discriminate H]|discriminate].
  - destruct b; simpl.
    + split; [split; [intros _; split; [reflexivity|discriminate]|reflexivity]|].
      now intros e [= <-].
    + split; [split; [discriminate|intros [H _]; discriminate H]|discriminate].
  - destruct (negb (n =? 0)%Z).
    + split; [split; [intros _; split; [reflexivity|discriminate]|reflexivity]|].
      now intros e [= <-].
    + split; [split; [discriminate|intros [H _]; discriminate H]|discriminate].
  - destruct (negb (str_eqb m [])).
    + split; [split; [discriminate|intros [_ H]; now destruct (H m)]|discriminate].
    + split; [split; [discriminate|intros [H _]; discriminate H]|discriminate].
  - split; [split; [intros _; split; [reflexivity|discriminate]|reflexivity]|].
    now intros e [= <-].
Qed.

(** A field message that does not hold the key is shown as it is. *)
Theorem field_message_without_key_unchanged (error : JsVal) (message : str) :
  first_field_message error = VStr message -> message <> [] ->
  (forall k, head (keys (prop error (lit "errors"))) = Some k ->
             indexOf k message = None) ->
  extractErrorMessage error = Normal (VStr message).
Proof.
  intros Hm Hne Hno.
  destruct (FormFacts.extractErrorMessage_field unicodeUpper error message Hm Hne)
    as (k & Hk & ->).
  unfold replace. now rewrite (Hno k Hk).
Qed.

(** Only the first entry of [errors] counts: two reasons with the same
    generic message and the same first entry give the same result, whatever
    their other entries. *)
Theorem later_field_errors_ignored (e1 e2 : JsVal) k entry rest1 rest2 :
  prop e1 (lit "message") = prop e2 (lit "message") ->
  prop e1 (lit "errors") = VObj ((k, entry) :: rest1) ->
  prop e2 (lit "errors") = VObj ((k, entry) :: rest2) ->
  extractErrorMessage e1 = extractErrorMessage e2.
Proof.
  intros Hm H1 H2. unfold StateForm.extractErrorMessage.
  rewrite Hm, H1, H2. cbn -[str_eqb lit].
  now rewrite FormFacts.str_eqb_refl.
Qed.

(** A reason that is not an object (null, undefined, a string, a number, a
    boolean) has no messages: the notification is the fallback text of the
    handler. *)
Theorem reason_without_messages_shows_fallback (st : State) (error : JsVal) :
  (forall ps, error <> VObj ps) ->
  error_toasts (exec (createMutation_onError error) st).2 =
    [VStr (lit "Failed to create state")]
  /\ error_toasts (exec (updateMutation_onError error) st).2 =
    [VStr (lit "Failed to update state")].
Proof.
  intros Hno.
  assert (He : extractErrorMessage error = Normal VUndefined).
  { destruct error; try reflexivity. now destruct (Hno props). }
  unfold StateForm.createMutation_onError, StateForm.updateMutation_onError.
  rewrite !(FormFacts.exec_mutation_onError unicodeUpper Validate st _ _ _ _ He).
  split; reflexivity.
Qed.

End Reasons.

Lemma extractErrorMessage_throws_iff_witness :
  extractErrorMessage (fun s => s)
    (VObj [(lit "errors", VObj [(lit "stateName", VObj [(lit "message", VNum 5)])])])
  = Throw TypeError.
Proof.
  apply (extractErrorMessage_throws_iff (fun s => s)).
  split; [reflexivity|discriminate].
Defined.

Lemma field_message_without_key_unchanged_witness :
  extractErrorMessage (fun s => s)
    (VObj [(lit "errors",
            VObj [(lit "stateName", VObj [(lit "message", VStr (lit "Already taken"))])])])
  = Normal (VStr (lit "Already taken")).
Proof.
  apply (field_message_without_key_unchanged (fun s => s)).
  - reflexivity.
  - discriminate.
  - intros k [= <-]. reflexivity.
Defined.

Lemma later_field_errors_ignored_witness :
  extractErrorMessage (fun s => s)
    (VObj [(lit "errors",
            VObj [(lit "stateName", VObj [(lit "message", VStr (lit "Taken"))]);
                  (lit "other", VObj [(lit "message", VStr (lit "Bad"))])])])
  = extractErrorMessage (fun s => s)
    (VObj [(lit "errors",
            VObj [(lit "stateName", VObj [(lit "message", VStr (lit "Taken"))])])]).
Proof.
  eapply (later_field_errors_ignored (fun s => s)); reflexivity.
Defined.

Lemma reason_without_messages_shows_fallback_witness :
  error_toasts
    (exec (createMutation_onError (fun s => s) (fun _ errs => errs) VNull)
          initial).2
  = [VStr (lit "Failed to create state")].
Proof.
  apply (reason_without_messages_shows_fallback (fun s => s) (fun _ errs => errs)
           initial VNull).
  discriminate.
Defined.

Lemma failed_submission_displays_witness :
  error_toasts
    (exec (mutation_onError (fun s => s) (fun _ errs => errs)
             "Update state error:" "Failed to update state"
             (VObj [(lit "message", VStr (lit "Validation failed"))]))
          initial).2
  = [VStr (lit "Validation failed")].
Proof.
  apply (FormFacts.failed_submission_displays (fun s => s) (fun _ errs => errs)
           initial "Update state error:" "Failed to update state"
           (VObj [(lit "message", VStr (lit "Validation failed"))])).
  reflexivity.
Defined.

End ErrorExtras.

(** ** More on the component *)

Module FormExtras.

Import Js Json StateForm Notions.

Ltac unfold_handlers :=
  unfold StateForm.step, exec, StateForm.dispatch, StateForm.deliver,
    StateForm.render,
    createMutation_onSuccess, updateMutation_onSuccess,
    createMutation_onError, updateMutation_onError, mutation_onError,
    StateForm.handleSubmit, handleCancel, onSubmit, onChange,
    createMutation_mutate, updateMutation_mutate,
    query_succeeded, query_failed, sync_form_with_data,
    invalidateQueries, StateForm.refetch, start_fetch, queryFn,
    form_reset, complete, toast_success, toast_error,
    navigate, console_error, emit, modify, skip,
    isFormLoading, mbind, M_bind, mret, M_ret in *.

Ltac split_handlers up msg props :=
  repeat match goal with
         | |- context [extractErrorMessage up ?e] =>
             destruct (extractErrorMessage up e)
         | |- context [stateFormSchema msg ?x] =>
             let E := fresh "Eschema" in destruct (stateFormSchema msg x) eqn:E
         | |- context [onSuccess props] => destruct (onSuccess props)
         | |- context [match earlierCreates ?s with _ => _ end] =>
             destruct (earlierCreates s)
         | |- context [match earlierUpdates ?s with _ => _ end] =>
             destruct (earlierUpdates s)
         | |- context [if ?b then _ else _] => destruct b eqn:?
         end.

Section Component.

Variable unicodeUpper : str -> str.
Variable Validate : JsVal -> gmap str str -> gmap str str.
Variable invalidTypeMessage : JsVal -> str.
Variable props : StateFormProps.

Local Abbreviation handleSubmit := (handleSubmit invalidTypeMessage props).
Local Abbreviation deliver := (deliver unicodeUpper Validate invalidTypeMessage props).
Local Abbreviation step := (step unicodeUpper Validate invalidTypeMessage props).
Local Abbreviation run := (run unicodeUpper Validate invalidTypeMessage props).
Local Abbreviation run_staged :=
  (run_staged unicodeUpper Validate invalidTypeMessage props).
Local Abbreviation reachable := (reachable unicodeUpper Validate invalidTypeMessage props).
Local Abbreviation render := (render props).
Local Abbreviation consistent := (consistent props).
Local Abbreviation fetch_failed := (fetch_failed props).
Local Abbreviation completion := (completion props).
Local Abbreviation request := (request props).

Lemma stateFormSchema_inr v name :
  stateFormSchema invalidTypeMessage v = inr name ->
  v = VStr name /\ valid_name name.
Proof.
  unfold stateFormSchema, valid_name. destruct v; try discriminate.
  destruct (N.ltb_spec (len s) 1); [discriminate|].
  destruct (N.ltb_spec 255 (len s)); [discriminate|].
  intros [= ->]. split; [reflexivity|lia].
Qed.

(** *** What is sent *)

Lemma deliver_sends dom st ev : Forall (sent_by props) (exec (deliver dom ev) st).2.
Proof.
  destruct ev; try destruct dom as [| |f]; unfold_handlers; unfold query_enabled;
    simpl; rewrite ?(FormFacts.same_data_stateId props); simpl;
    split_handlers unicodeUpper invalidTypeMessage props;
    simpl; repeat constructor.
  all: try assumption.
  all: try (destruct (mode props); (reflexivity || discriminate)).
  all: apply stateFormSchema_inr in Eschema as [_ Hvalid]; eauto.
Qed.

Lemma run_sends_submissions evs :
  forall st, Forall (sent_by props) (run st evs).2.
Proof.
  induction evs as [|ev evs IH]; intros st; [constructor|].
  simpl.
  assert (H1 : Forall (sent_by props) (step st ev).2)
    by exact (deliver_sends (render st) st ev).
  destruct (step st ev) as [st1 t1]. specialize (IH st1).
  destruct (run st1 evs) as [st2 t2]. simpl in *.
  apply Forall_app. split; assumption.
Qed.

Lemma run_staged_sends os :
  forall st dom, Forall (sent_by props) (run_staged st dom os).2.
Proof.
  induction os as [|[ev|] os IH]; intros st dom; [constructor| |apply IH].
  simpl. pose proof (deliver_sends dom st ev) as H1.
  destruct (exec (deliver dom ev) st) as [st1 t1]. specialize (IH st1 dom).
  destruct (run_staged st1 dom os) as [[st2 dom2] t2]. simpl in *.
  apply Forall_app. split; assumption.
Qed.

(** Whatever the state, the screen and the events, the calls a mounted
    form sends are those of its mode: in Create mode a POST to [/api/states],
    in Edit mode a PUT to [/api/states/<id>], each with a body [{stateName}]
    whose name has 1 to 255 units, and, where the query is enabled, the GET of
    [/api/states/<id>] again. *)
Theorem run_sends_only_valid_submissions (st : State) (evs : list Event) :
  Forall (sent_by props) (run st evs).2
  /\ forall dom os, Forall (sent_by props) (run_staged st dom os).2.
Proof.
  split; [apply run_sends_submissions|]. intros dom os. apply run_staged_sends.
Qed.

(** A submission goes out only on a click on a submit button that the
    screen shows enabled, and it leaves a submission in flight. *)
Theorem submission_needs_enabled_button (dom : View) (st : State) (ev : Event) :
  existsb is_submission (exec (deliver dom ev) st).2 = true ->
  ev = ClickSubmit
  /\ (exists f, dom = FormShown f /\ submit_disabled f = false)
  /\ (createPending (exec (deliver dom ev) st).1
      || updatePending (exec (deliver dom ev) st).1) = true.
Proof.
  destruct ev; try destruct dom as [| |f]; unfold_handlers; unfold query_enabled;
    simpl; rewrite ?(FormFacts.same_data_stateId props); simpl;
    split_handlers unicodeUpper invalidTypeMessage props;
    simpl; try discriminate.
  all: intros _; split; [reflexivity|]; split; [eauto|]; simpl.
  all: rewrite ?orb_true_r; reflexivity.
Qed.

(** *** Rejected submissions *)





(** *** No update before the fetch has succeeded *)

Lemma step_while_fetching st ev :
  consistent st -> isFetchingState st = true ->
  match ev with
  | FetchResolved response => is_undefined response = true
  | FetchRejected error => truthy error = true
  | _ => True
  end ->
  List.filter is_network (step st ev).2 = []
  /\ (isFetchingState (step st ev).1 = true \/ fetch_failed (step st ev).1).
Proof.
  intros [_ _ _ [Hec Heu] Hfetch _ _] Hf Hev.
  destruct (Hfetch Hf) as (Hm & _ & Hrf & Hc & Hu).
  destruct st as [v d errs sub sd fetching refetching fe cp up ec eu].
  simpl in *. subst.
  destruct ev; unfold_handlers; simpl; rewrite ?Hm, ?Hev; simpl.
  all: split; [reflexivity|].
  all: try (now left).
  all: right; constructor; simpl; auto.
Qed.

Lemma run_before_fetch_success evs :
  forall st, consistent st ->
    isFetchingState st = true \/ fetch_failed st ->
    fetch_only_fails evs ->
    List.filter is_network (run st evs).2 = [].
Proof.
  induction evs as [|ev evs IH]; intros st Hc Hst Hevs; [reflexivity|].
  apply Forall_cons in Hevs as [Hev Hevs].
  destruct Hst as [Hf|Hfailed].
  - destruct (step_while_fetching st ev Hc Hf Hev) as [Hn Hnext].
    pose proof (FormFacts.step_consistent unicodeUpper Validate invalidTypeMessage
                  props st ev Hc) as Hc1.
    simpl. destruct (step st ev) as [st1 t1]. simpl in *.
    specialize (IH st1 Hc1 Hnext Hevs). destruct (run st1 evs) as [st2 t2].
    simpl in *. now rewrite List.filter_app, Hn, IH.
  - destruct (FormFacts.run_fetch_failed unicodeUpper Validate invalidTypeMessage
                props (ev :: evs) st Hfailed) as [_ Hnav].
    induction Hnav as [|e t -> _ IHt]; [reflexivity|exact IHt].
Qed.

(** In Edit mode with a state id the first render sends the fetch of
    [/api/states/<id>], and as long as that fetch has not succeeded (what
    arrives of it is a failure with a truthy reason, or the [undefined] the
    query library takes for one) the form sends nothing more: no second fetch
    and no update. *)
Theorem no_update_before_fetch_success (st0 : State) (t0 : list Effect)
    (evs : list Event) :
  mode props = edit -> has_stateId props = true ->
  mount props = Normal (st0, t0) -> fetch_only_fails evs ->
  t0 = [Get (lit "/api/states/" ++ interpolate (stateId props))]
  /\ List.filter is_network (run st0 evs).2 = [].
Proof.
  intros Hm Hid Hmount Hevs.
  pose proof (FormFacts.mount_consistent props st0 t0 Hmount) as Hc.
  unfold mount, query_enabled, queryFn in Hmount. rewrite Hm, Hid in Hmount.
  simpl in Hmount. injection Hmount as <- <-. split; [reflexivity|].
  apply run_before_fetch_success; [exact Hc|now left|exact Hevs].
Qed.

(** *** What is typed is what is sent *)

Lemma offered_submit st :
  SubmitButton ∈ controls (render st) ->
  (mode_eqb (mode props) edit && isFetchingState st) = false
  /\ (mode_eqb (mode props) edit && is_set (fetchError st)) = false
  /\ isFormLoading st = false.
Proof.
  unfold StateForm.render.
  destruct (mode_eqb (mode props) edit && isFetchingState st);
    [intros H; now apply elem_of_nil in H|].
  destruct (mode_eqb (mode props) edit && is_set (fetchError st));
    [simpl; rewrite elem_of_cons, elem_of_nil; intuition discriminate|].
  simpl. destruct (isFormLoading st); [|auto].
  simpl. intros H. now apply elem_of_nil in H.
Qed.

Lemma type_then_submit (st : State) (name : str) :
  SubmitButton ∈ controls (render st) -> valid_name name ->
  (run st [TypeText name; ClickSubmit]).2 = [request (payload name)].
Proof.
  intros Hoffered Hvalid.
  destruct (offered_submit st Hoffered) as (Hload & Herr & Hnl).
  set (st1 := set_form (VStr name) (defaultValue st)
                (if isSubmitted st
                 then revalidated invalidTypeMessage (VStr name) (errors st)
                 else errors st) st).
  assert (Htype : step st (TypeText name) = (st1, [])).
  { unfold StateForm.step, exec, StateForm.dispatch, StateForm.deliver,
      StateForm.render.
    rewrite Hload, Herr. simpl. now rewrite Hnl. }
  cbn [StateForm.run]. rewrite Htype.
  assert (Hoffered1 : SubmitButton ∈ controls (render st1)).
  { unfold StateForm.render. subst st1. simpl.
    unfold isFormLoading in *. simpl. rewrite Hload, Herr, Hnl. simpl.
    rewrite !elem_of_cons. auto. }
  rewrite (FormFacts.click_submit_runs_handleSubmit _ _ _ _ _ Hoffered1).
  destruct (FormFacts.exec_handleSubmit_valid invalidTypeMessage props st1 name
              eq_refl Hvalid) as [Ht _].
  destruct (exec handleSubmit st1) as [st2 t2]. simpl in Ht. subst t2.
  reflexivity.
Qed.

(** When the submit button is offered, typing a name of 1 to 255 units and
    clicking it sends exactly one request, the one of the mode, with that
    name. *)
Theorem typed_name_is_what_is_sent (st : State) (name : str) :
  SubmitButton ∈ controls (render st) -> valid_name name ->
  (run st [TypeText name; ClickSubmit]).2 = [request (payload name)].
Proof. intros Hoffered Hvalid. now apply type_then_submit. Qed.

(** In Edit mode, submitting the form right after the fetch sends the
    fetched name back: the update carries the [stateName] of the response. *)
Theorem fetched_name_is_sent_back (st : State) (response : JsVal) (name : str) :
  reachable st -> mode props = edit -> isFetchingState st = true ->
  prop response (lit "stateName") = VStr name -> valid_name name ->
  List.filter is_network (run st [FetchResolved response; ClickSubmit]).2 =
  [Put (lit "/api/states/" ++ interpolate (stateId props)) (payload name)].
Proof.
  intros Hreach Hm Hf Hname Hvalid.
  pose proof (FormFacts.reachable_consistent _ _ _ _ _ Hreach)
    as [_ _ _ _ Hfetch _ _].
  destruct (Hfetch Hf) as (_ & Hsd & _ & Hc & Hu).
  assert (Hobj : exists ps, response = VObj ps).
  { destruct response; try discriminate Hname. eauto. }
  destruct Hobj as [ps ->].
  assert (Hne : truthy (VStr name) = true).
  { unfold valid_name, len in Hvalid. destruct name; [simpl in Hvalid; lia|reflexivity]. }
  set (st1 := set_isSubmitted false
                (set_form (VStr name) (VStr name) ∅
                   (set_isRefetching false (set_query (VObj ps) false None st)))).
  assert (Hfetched : step st (FetchResolved (VObj ps)) =
            (st1, [FormReset (Some (VObj [(lit "stateName", VStr name)]))])).
  { unfold_handlers. rewrite Hf, Hsd. simpl. rewrite Hm. simpl.
    simpl in Hname. rewrite Hname. unfold or_else. rewrite Hne. reflexivity. }
  cbn [StateForm.run]. rewrite Hfetched.
  assert (Hoffered1 : SubmitButton ∈ controls (render st1)).
  { unfold StateForm.render, isFormLoading. subst st1. simpl.
    rewrite Hm, Hc, Hu. simpl. rewrite !elem_of_cons. auto. }
  rewrite (FormFacts.click_submit_runs_handleSubmit _ _ _ _ _ Hoffered1).
  destruct (FormFacts.exec_handleSubmit_valid invalidTypeMessage props st1 name
              eq_refl Hvalid) as [Ht _].
  destruct (exec handleSubmit st1) as [st2 t2]. simpl in Ht. subst t2.
  unfold StateForm.request. rewrite Hm. reflexivity.
Qed.

(** *** Cancel *)

(** Cancel never touches the form or the network: when its button is
    offered a click performs the completion action and nothing else, and
    while the form is loading or not shown the click does nothing. *)
Theorem cancel_only_completes (st : State) :
  (step st ClickCancel).1 = st
  /\ ((CancelButton ∈ controls (render st) /\ (step st ClickCancel).2 = [completion])
      \/ ((CancelButton ∉ controls (render st)) /\ (step st ClickCancel).2 = [])).
Proof.
  unfold StateForm.step, exec, StateForm.dispatch, StateForm.deliver,
    handleCancel, complete,
    StateForm.completion, navigate, emit, skip, mret, M_ret.
  destruct (render st) as [| |f]; simpl.
  - split; [reflexivity|]. right. split; [apply not_elem_of_nil|reflexivity].
  - split; [reflexivity|]. right.
    split; [|reflexivity]. rewrite elem_of_cons, elem_of_nil. intuition discriminate.
  - destruct (cancel_disabled f) eqn:Ec; simpl.
    + split; [reflexivity|]. right. split; [|reflexivity].
      destruct (input_disabled f), (submit_disabled f); simpl;
        rewrite ?elem_of_cons, ?elem_of_nil; intuition discriminate.
    + destruct (onSuccess props); (split; [reflexivity|]); left;
        (split; [|reflexivity]);
        destruct (input_disabled f), (submit_disabled f); simpl;
        rewrite ?elem_of_cons; auto.
Qed.

End Component.

(** *** The callers *)

Import Callers.

Lemma submission_of_create up V msg cb st evs e :
  e ∈ (run up V msg (CreateState cb) st evs).2 -> is_network e = true ->
  exists name, e = Post (lit "/api/states") (payload name) /\ valid_name name.
Proof.
  intros He Hn.
  pose proof (run_sends_submissions up V msg (CreateState cb) evs st) as H.
  rewrite Forall_forall in H. specialize (H e He).
  destruct e; try discriminate Hn; simpl in H.
  - destruct H as (Hq & _). discriminate Hq.
  - destruct H as (_ & -> & name & -> & Hv). eauto.
  - destruct H as (Hm & _). discriminate Hm.
Qed.

(** [CreateState] never fetches: its first render sends nothing, and every
    call it sends later is a POST to [/api/states] with a valid name. *)
Theorem CreateState_only_posts up V msg cb (evs : list Event) :
  mount (CreateState cb) = Normal (initial, [])
  /\ forall e, e ∈ (run up V msg (CreateState cb) initial evs).2 ->
       is_network e = true ->
       exists name, e = Post (lit "/api/states") (payload name) /\ valid_name name.
Proof.
  split; [reflexivity|]. intros e. apply submission_of_create.
Qed.

(** [EditState] with a state id fetches that state at its first render, and
    every call it sends later is a PUT to the same address with a valid name,
    or the fetch of that address again. *)
Theorem EditState_fetches_then_puts up V msg (id : str) cb (evs : list Event) :
  id <> [] ->
  mount (EditState id cb) =
    Normal (set_query VUndefined true None initial, [Get (lit "/api/states/" ++ id)])
  /\ forall e, e ∈ (run up V msg (EditState id cb)
                       (set_query VUndefined true None initial) evs).2 ->
       is_network e = true ->
       e = Get (lit "/api/states/" ++ id)
       \/ exists name, e = Put (lit "/api/states/" ++ id) (payload name)
                       /\ valid_name name.
Proof.
  intros Hid. split.
  - unfold mount, query_enabled, queryFn, has_stateId. simpl.
    destruct id; [contradiction|reflexivity].
  - intros e He Hn.
    pose proof (run_sends_submissions up V msg (EditState id cb) evs
                  (set_query VUndefined true None initial)) as H.
    rewrite Forall_forall in H. specialize (H e He).
    destruct e; try discriminate Hn; simpl in H.
    + destruct H as (_ & ->). now left.
    + destruct H as (Hm & _). discriminate Hm.
    + destruct H as (_ & -> & name & -> & Hv). right. eauto.
Qed.

(** [EditState] with the empty string for id: the query is disabled, so
    the first render sends nothing and shows the empty form with its submit
    button; a valid name typed and submitted is PUT to [/api/states/]. *)
Theorem EditState_with_empty_id up V msg cb (name : str) :
  valid_name name ->
  mount (EditState [] cb) = Normal (initial, [])
  /\ SubmitButton ∈ controls (render (EditState [] cb) initial)
  /\ (run up V msg (EditState [] cb) initial [TypeText name; ClickSubmit]).2 =
     [Put (lit "/api/states/") (payload name)].
Proof.
  intros Hvalid.
  assert (Hoffered : SubmitButton ∈ controls (render (EditState [] cb) initial)).
  { unfold render. simpl. rewrite !elem_of_cons. auto. }
  split; [reflexivity|]. split; [exact Hoffered|].
  rewrite (type_then_submit up V msg (EditState [] cb) initial name
             Hoffered Hvalid).
  reflexivity.
Qed.

(** *** The extras on the concrete components *)

Import Examples.

(** A rejected update does not always bring the submit button back: in
    [updatingAfterFailedRefetch] the fetch that followed an earlier update has
    failed while a second update was in flight, and once that one is rejected
    the fetch-failed view is all there is. *)
Example rejected_update_behind_failed_fetch :
  reachable asciiOnly noValidate noMessage editProps updatingAfterFailedRefetch
  /\ updatePending updatingAfterFailedRefetch = true
  /\ controls (render editProps
                 (step asciiOnly noValidate noMessage editProps
                       updatingAfterFailedRefetch (UpdateRejected VNull)).1) =
     [BackButton].
Proof.
  split; [|split; vm_compute; reflexivity].
  exists fetching, [Get (lit "/api/states/7")],
    [FetchResolved (VObj [(lit "id", VNum 7); (lit "stateName", VStr (lit "Texas"))]);
     ClickSubmit; UpdateResolved; ClickSubmit;
     FetchRejected (VObj [(lit "message", VStr (lit "Network Error"))])].
  split; [reflexivity|vm_compute; reflexivity].
Qed.

Lemma submission_needs_enabled_button_witness :
  existsb is_submission
    (exec (deliver asciiOnly noValidate noMessage createProps
                   (render createProps typed) ClickSubmit) creating).2 = true
  /\ exists f, render createProps typed = FormShown f /\ submit_disabled f = false.
Proof.
  split; [reflexivity|].
  apply (submission_needs_enabled_button asciiOnly noValidate noMessage createProps
           (render createProps typed) creating ClickSubmit).
  reflexivity.
Defined.


Lemma no_update_before_fetch_success_witness :
  List.filter is_network
    (run asciiOnly noValidate noMessage editProps fetching
         [ClickSubmit; TypeText (lit "Goa");
          FetchRejected (VObj [(lit "message", VStr (lit "Not found"))]);
          ClickSubmit]).2 = [].
Proof.
  apply (no_update_before_fetch_success asciiOnly noValidate noMessage editProps
           fetching [Get (lit "/api/states/7")]).
  - reflexivity.
  - reflexivity.
  - reflexivity.
  - repeat constructor.
Defined.

Lemma typed_name_is_what_is_sent_witness :
  (run asciiOnly noValidate noMessage createProps initial
       [TypeText (lit "Goa"); ClickSubmit]).2 =
  [Post (lit "/api/states") (payload (lit "Goa"))].
Proof.
  apply (typed_name_is_what_is_sent asciiOnly noValidate noMessage createProps
           initial (lit "Goa")).
  - unfold render. simpl. rewrite !elem_of_cons. auto.
  - unfold valid_name. vm_compute. split; discriminate.
Defined.

Lemma fetched_name_is_sent_back_witness :
  List.filter is_network
    (run asciiOnly noValidate noMessage editProps fetching
         [FetchResolved (VObj [(lit "id", VNum 7); (lit "stateName", VStr (lit "Texas"))]);
          ClickSubmit]).2 =
  [Put (lit "/api/states/7") (payload (lit "Texas"))].
Proof.
  apply (fetched_name_is_sent_back asciiOnly noValidate noMessage editProps fetching
           (VObj [(lit "id", VNum 7); (lit "stateName", VStr (lit "Texas"))])
           (lit "Texas")).
  - exists fetching, [Get (lit "/api/states/7")], []. split; reflexivity.
  - reflexivity.
  - reflexivity.
  - reflexivity.
  - unfold valid_name. vm_compute. split; discriminate.
Defined.

Lemma CreateState_only_posts_witness :
  exists name,
    Post (lit "/api/states") (payload (lit "Goa")) =
    Post (lit "/api/states") (payload name) /\ valid_name name.
Proof.
  destruct (CreateState_only_posts asciiOnly noValidate noMessage None
              [TypeText (lit "Goa"); ClickSubmit]) as [_ H].
  apply (H (Post (lit "/api/states") (payload (lit "Goa")))).
  - vm_compute. apply list_elem_of_here.
  - reflexivity.
Defined.

Lemma EditState_fetches_then_puts_witness :
  mount (EditState (lit "7") None) =
  Normal (set_query VUndefined true None initial, [Get (lit "/api/states/7")]).
Proof.
  apply (EditState_fetches_then_puts asciiOnly noValidate noMessage (lit "7") None []).
  discriminate.
Defined.

Lemma EditState_with_empty_id_witness :
  (run asciiOnly noValidate noMessage (EditState [] None) initial
       [TypeText (lit "Goa"); ClickSubmit]).2 =
  [Put (lit "/api/states/") (payload (lit "Goa"))].
Proof.
  apply (EditState_with_empty_id asciiOnly noValidate noMessage None (lit "Goa")).
  unfold valid_name. vm_compute. split; discriminate.
Defined.

End FormExtras.

(** ** The theme of the layout *)

Module LayoutFacts.

Import Js Json MainLayout.

Lemma theme_is_not_user : lit "theme" <> lit "user".
Proof. discriminate. Qed.

Lemma toggleClass_in_step (dark : bool) (b : Browser) :
  lit "dark" ∈ classList (toggleClass dark b) <-> dark = true.
Proof.
  unfold toggleClass. cbn [classList]. destruct dark.
  - rewrite elem_of_union, elem_of_singleton. intuition.
  - rewrite elem_of_difference, elem_of_singleton. intuition discriminate.
Qed.

Lemma toggleClass_other (dark : bool) (b : Browser) (c : str) :
  c <> lit "dark" -> c ∈ classList (toggleClass dark b) <-> c ∈ classList b.
Proof.
  intros Hc. unfold toggleClass. cbn [classList]. destruct dark.
  - rewrite elem_of_union, elem_of_singleton. intuition.
  - rewrite elem_of_difference, elem_of_singleton. intuition.
Qed.

(** Setting the class that is already in step changes nothing. *)
Lemma toggleClass_fixed (dark : bool) (b : Browser) :
  (lit "dark" ∈ classList b <-> dark = true) -> toggleClass dark b = b.
Proof.
  intros H. destruct b as [ls pd cl]. unfold toggleClass. simpl in *. f_equal.
  apply leibniz_equiv. intros c. destruct dark.
  - rewrite elem_of_union, elem_of_singleton. split; [|auto].
    intros [->|Hin]; [now apply H|exact Hin].
  - rewrite elem_of_difference, elem_of_singleton. split; [now intros [Hin _]|].
    intros Hin. split; [exact Hin|]. intros ->. apply H in Hin. discriminate.
Qed.

Lemma setIsDarkMode_class dark l :
  (lit "dark" ∈ classList (browser l) <-> isDarkMode l = true) ->
  lit "dark" ∈ classList (browser (setIsDarkMode dark l)) <-> dark = true.
Proof.
  intros H. unfold setIsDarkMode. simpl.
  destruct (Bool.eqb dark (isDarkMode l)) eqn:E.
  - apply Bool.eqb_prop in E. now subst.
  - apply toggleClass_in_step.
Qed.

Lemma initialDarkMode_ext b b' :
  localStorage b' = localStorage b -> prefersDark b' = prefersDark b ->
  initialDarkMode b' = initialDarkMode b.
Proof. unfold initialDarkMode, getItem. now intros -> ->. Qed.

(** With a theme stored the system preference plays no part. *)
Lemma initialDarkMode_stored b b' :
  localStorage b' = localStorage b -> present (getItem "theme" b) = true ->
  initialDarkMode b' = initialDarkMode b.
Proof.
  unfold initialDarkMode, present, getItem. intros ->.
  destruct (localStorage b !! lit "theme") as [saved|]; [|discriminate].
  now intros ->.
Qed.

(** Without one the mode is the system preference. *)
Lemma initialDarkMode_unset b :
  present (getItem "theme" b) = false -> initialDarkMode b = prefersDark b.
Proof.
  unfold initialDarkMode, present, getItem.
  destruct (localStorage b !! lit "theme") as [saved|]; [|reflexivity].
  now intros ->.
Qed.

Lemma step_in_step l ev : in_step l -> in_step (step l ev).
Proof.
  intros [Hc Hm]. destruct ev as [matches|]; simpl.
  - unfold handleChange. cbn [browser isDarkMode].
    change (getItem "theme" (setPreference matches (browser l)))
      with (getItem "theme" (browser l)).
    destruct (present (getItem "theme" (browser l))) eqn:Ep; cbn [negb].
    + constructor; cbn [browser isDarkMode]; [exact Hc|].
      rewrite Hm. symmetry. now apply initialDarkMode_stored.
    + constructor.
      * apply setIsDarkMode_class. exact Hc.
      * unfold setIsDarkMode. cbn [browser isDarkMode].
        rewrite (initialDarkMode_ext (setPreference matches (browser l)))
          by (destruct (Bool.eqb matches (isDarkMode l)); reflexivity).
        symmetry. now apply (initialDarkMode_unset (setPreference matches (browser l))).
  - unfold toggleDarkMode. constructor; simpl.
    + destruct (Bool.eqb (negb (isDarkMode l)) (isDarkMode l)) eqn:E.
      * destruct (isDarkMode l); discriminate E.
      * simpl. apply toggleClass_in_step.
    + unfold initialDarkMode, getItem, setItem. simpl.
      rewrite lookup_insert_eq. destruct (isDarkMode l); reflexivity.
Qed.

Lemma run_in_step evs : forall l, in_step l -> in_step (run l evs).
Proof.
  unfold run. induction evs as [|ev evs IH]; intros l Hl; [exact Hl|].
  simpl. apply IH, step_in_step, Hl.
Qed.

Lemma run_leaves_others (l : Layout) (evs : list Event) :
  (forall k, k <> lit "theme" ->
     localStorage (browser (run l evs)) !! k = localStorage (browser l) !! k)
  /\ (forall c, c <> lit "dark" ->
     (c ∈ classList (browser (run l evs)) <-> c ∈ classList (browser l))).
Proof.
  unfold run. revert l. induction evs as [|ev evs IH]; intros l; [now split|].
  simpl. destruct (IH (step l ev)) as [IHs IHc].
  assert (Hstep :
    (forall k, k <> lit "theme" ->
       localStorage (browser (step l ev)) !! k = localStorage (browser l) !! k)
    /\ (forall c, c <> lit "dark" ->
       (c ∈ classList (browser (step l ev)) <-> c ∈ classList (browser l)))).
  { destruct ev as [matches|]; cbn [step].
    - unfold handleChange, setIsDarkMode. cbn [browser isDarkMode].
      destruct (negb _); cbn [browser];
        [|split; intros; reflexivity].
      destruct (Bool.eqb matches (isDarkMode l));
        [split; intros; reflexivity|].
      split; [intros; reflexivity|]. intros c Hc.
      now rewrite toggleClass_other.
    - unfold toggleDarkMode, setIsDarkMode. cbn [browser isDarkMode]. split.
      + intros k Hk. unfold setItem. cbn [localStorage].
        rewrite lookup_insert_ne by congruence.
        now destruct (Bool.eqb (negb (isDarkMode l)) (isDarkMode l)).
      + intros c Hc. unfold setItem. cbn [classList].
        destruct (Bool.eqb (negb (isDarkMode l)) (isDarkMode l));
          [reflexivity|].
        now apply toggleClass_other. }
  destruct Hstep as [Hs Hc]. split.
  - intros k Hk. now rewrite IHs, Hs.
  - intros c Hne. now rewrite IHc, Hc.
Qed.

(** Only the key [theme] is written and only the class [dark] is set or
    removed. *)
Theorem run_touches_theme_and_dark_only (l : Layout) (evs : list Event) :
  (forall k, k <> lit "theme" ->
     localStorage (browser (run l evs)) !! k = localStorage (browser l) !! k)
  /\ (forall c, c <> lit "dark" ->
     (c ∈ classList (browser (run l evs)) <-> c ∈ classList (browser l))).
Proof. exact (run_leaves_others l evs). Qed.

Section Parsing.

Variable jsonParses : str -> bool.

Local Abbreviation mount := (mount jsonParses).

Lemma mount_in_step b l : mount b = Some l -> in_step l.
Proof.
  unfold MainLayout.mount. destruct (userData_renders jsonParses b); [|discriminate].
  intros [= <-]. constructor; simpl.
  - apply toggleClass_in_step.
  - reflexivity.
Qed.

(** After the first render and whatever events follow, the class [dark] of
    the document is set exactly in dark mode, and the mode is the stored theme
    when one is stored (dark for ["dark"], light for anything else) and the
    system preference otherwise. *)
Theorem theme_stays_in_step (b : Browser) (l : Layout) (evs : list Event) :
  mount b = Some l ->
  let l' := run l evs in
  (lit "dark" ∈ classList (browser l') <-> isDarkMode l' = true)
  /\ isDarkMode l' =
     match getItem "theme" (browser l') with
     | Some saved => if truthy (VStr saved) then str_eqb saved (lit "dark")
                     else prefersDark (browser l')
     | None => prefersDark (browser l')
     end.
Proof.
  intros Hmount l'. subst l'.
  destruct (run_in_step evs l (mount_in_step b l Hmount)) as [Hc Hm].
  split; [exact Hc|exact Hm].
Qed.

(** Mounting again in the browser a run has left gives back the very state
    of the component and changes nothing in the browser: the theme survives a
    reload. *)
Theorem remount_restores_theme (b : Browser) (l : Layout) (evs : list Event) :
  mount b = Some l ->
  mount (browser (run l evs)) = Some (run l evs).
Proof.
  intros Hmount.
  pose proof (run_in_step evs l (mount_in_step b l Hmount)) as [Hc Hm].
  destruct (run_leaves_others l evs) as [Hstore _].
  assert (Huser : userData_renders jsonParses (browser (run l evs)) = true).
  { unfold MainLayout.mount in Hmount.
    destruct (userData_renders jsonParses b) eqn:Hu; [|discriminate].
    injection Hmount as <-. simpl in Hstore.
    unfold userData_renders, getItem in *.
    rewrite (Hstore (lit "user")) by (intros H; symmetry in H; now apply theme_is_not_user).
    exact Hu. }
  unfold MainLayout.mount. rewrite Huser. rewrite <- Hm.
  rewrite (toggleClass_fixed _ _ Hc). now destruct (run l evs).
Qed.

End Parsing.

(** Once the user has toggled, the choice is stored and later changes of
    the system preference do not move the mode. *)
Theorem toggle_overrides_system_preference (l : Layout) (evs : list Event) :
  forallb is_preference_change evs = true ->
  isDarkMode (run (toggleDarkMode l) evs) = negb (isDarkMode l)
  /\ getItem "theme" (browser (run (toggleDarkMode l) evs)) =
     Some (if isDarkMode l then lit "light" else lit "dark").
Proof.
  assert (Hgen : forall evs l0 saved,
            forallb is_preference_change evs = true ->
            getItem "theme" (browser l0) = Some saved -> saved <> [] ->
            isDarkMode (run l0 evs) = isDarkMode l0
            /\ getItem "theme" (browser (run l0 evs)) = Some saved).
  { clear. unfold run. induction evs as [|ev evs IH]; intros l0 saved Hevs Hs Hne;
      [now split|].
    simpl in Hevs. apply andb_true_iff in Hevs as [Hev Hevs].
    destruct ev as [matches|]; [|discriminate]. simpl.
    assert (Hstep : handleChange matches
                      {| isDarkMode := isDarkMode l0;
                         browser := setPreference matches (browser l0) |}
                    = {| isDarkMode := isDarkMode l0;
                         browser := setPreference matches (browser l0) |}).
    { unfold handleChange. simpl.
      change (getItem "theme" (setPreference matches (browser l0)))
        with (getItem "theme" (browser l0)).
      rewrite Hs. simpl. destruct saved; [contradiction|reflexivity]. }
    rewrite Hstep.
    destruct (IH {| isDarkMode := isDarkMode l0;
                    browser := setPreference matches (browser l0) |} saved Hevs)
      as [H1 H2]; [exact Hs|exact Hne|].
    split; [exact H1|exact H2]. }
  intros Hevs.
  assert (Hs : getItem "theme" (browser (toggleDarkMode l)) =
               Some (if isDarkMode l then lit "light" else lit "dark")).
  { unfold toggleDarkMode, getItem, setItem. simpl. rewrite lookup_insert_eq.
    destruct (isDarkMode l); reflexivity. }
  destruct (Hgen evs (toggleDarkMode l) _ Hevs Hs) as [H1 H2].
  - destruct (isDarkMode l); discriminate.
  - split; [rewrite H1; reflexivity|exact H2].
Qed.

(** *** On a fresh browser *)

Lemma run_touches_theme_and_dark_only_witness :
  lit "h-full" ∈ classList (browser (run freshLayout [Toggle; PreferenceChanged true])).
Proof.
  apply (run_touches_theme_and_dark_only freshLayout [Toggle; PreferenceChanged true]).
  - discriminate.
  - cbn. rewrite elem_of_union, !elem_of_singleton. now right.
Defined.

Lemma theme_stays_in_step_witness :
  mount (fun _ => true) freshBrowser = Some freshLayout
  /\ (lit "dark" ∈ classList (browser (run freshLayout [Toggle]))
      <-> isDarkMode (run freshLayout [Toggle]) = true).
Proof.
  split; [reflexivity|].
  apply (theme_stays_in_step (fun _ => true) freshBrowser freshLayout [Toggle]).
  reflexivity.
Defined.

Lemma remount_restores_theme_witness :
  mount (fun _ => true) (browser (run freshLayout [Toggle; PreferenceChanged true])) =
  Some (run freshLayout [Toggle; PreferenceChanged true]).
Proof.
  apply (remount_restores_theme (fun _ => true) freshBrowser freshLayout).
  reflexivity.
Defined.

Lemma toggle_overrides_system_preference_witness :
  isDarkMode (run (toggleDarkMode freshLayout)
                  [PreferenceChanged true; PreferenceChanged false]) = false.
Proof.
  apply (toggle_overrides_system_preference freshLayout
           [PreferenceChanged true; PreferenceChanged false]).
  reflexivity.
Defined.

End LayoutFacts.
